(** * Estacionamiento IPS: the registration form and the dashboard

    A shallow embedding of [streamlit_app.py]: the text normalisers
    [_to_title] and [_norm_placa], the expansion of one form submission
    into rows, the header merge of [_ensure_headers], the store client
    ([append_form_rows], [load_data] and its cache) and the dashboard's
    filters and groupings. *)

From stdpp Require Import base decidable numbers list strings pretty sorting.

Set Default Proof Using "Type".
Local Open Scope N_scope.

(** ** Python strings

    A Python [str] is a sequence of Unicode code points: [list N].
    Literals of the source are written as Rocq strings and converted
    with [py]; the two non-ASCII letters of the source (in the day names)
    are written as their code points. *)

Definition pystr : Type := list N.

Definition py (s : string) : pystr :=
  Ascii.N_of_ascii <$> String.list_ascii_of_string s.

(** [s or ""] for a value that is a [str] or [None]. *)
Definition or_empty (s : option pystr) : pystr :=
  match s with
  | Some t => t
  | None => []
  end.

(** [s.replace(old, new)] where [old] is a single character. *)
Definition replace1 (old : N) (new : pystr) (s : pystr) : pystr :=
  s ≫= (λ c, if decide (c = old) then new else [c]).

(** [sep.join(parts)] *)
Fixpoint join (sep : pystr) (parts : list pystr) : pystr :=
  match parts with
  | [] => []
  | w :: rest =>
      match rest with
      | [] => w
      | _ :: _ => w ++ sep ++ join sep rest
      end
  end.

Section CaseMapping.

(** The Unicode tables behind [str.upper], [str.lower], the title-casing
    of [str.capitalize] and [str.isspace]: a character maps to a
    sequence of characters ([ß] has the upper case [SS]).  [str.lower]
    is character-wise except for U+03A3, whose lower case form depends
    on its position in the word. *)
Variables upper lower title : N → list N.
Variable isspace : N → bool.

Definition str_upper (s : pystr) : pystr := s ≫= upper.
Definition str_lower (s : pystr) : pystr := s ≫= lower.

(** [w.capitalize()]: first character in title case, the rest in
    lower case. *)
Definition capitalize (w : pystr) : pystr :=
  match w with
  | [] => []
  | c :: rest => title c ++ str_lower rest
  end.

(** [s.lstrip()], [s.rstrip()], [s.strip()] *)
Fixpoint lstrip (s : pystr) : pystr :=
  match s with
  | [] => []
  | c :: rest => if isspace c then lstrip rest else s
  end.

Definition rstrip (s : pystr) : pystr := reverse (lstrip (reverse s)).

Definition strip (s : pystr) : pystr := rstrip (lstrip s).

(** [s.split()]: the maximal runs of non-whitespace characters.  [cur]
    is the run being read, last character first. *)
Fixpoint split_from (cur : pystr) (s : pystr) : list pystr :=
  match s with
  | [] =>
      match cur with
      | [] => []
      | _ :: _ => [reverse cur]
      end
  | c :: rest =>
      if isspace c then
        match cur with
        | [] => split_from [] rest
        | _ :: _ => reverse cur :: split_from [] rest
        end
      else split_from (c :: cur) rest
  end.

Definition split (s : pystr) : list pystr := split_from [] s.

(** The word transformation of [_to_title]. *)
Definition title_word (w : pystr) : pystr :=
  if decide (2 < length w)%nat then capitalize w else str_lower w.

Definition _to_title (s : option pystr) : pystr :=
  let s := strip (or_empty s) in
  let parts := title_word <$> split s in
  join (py " ") parts.

Definition _norm_placa (s : option pystr) : pystr :=
  replace1 46 [] (replace1 32 [] (replace1 45 [] (str_upper (or_empty s)))).

Definition nonspace (c : N) : Prop := isspace c = false.

(** A character that is not white space, whose lower and title cases
    are single characters, themselves not white space and unchanged by
    a second conversion. *)
Definition simply_cased (c : N) : Prop :=
  isspace c = false
  ∧ ∃ l t, lower c = [l] ∧ title c = [t]
           ∧ lower l = [l] ∧ title t = [t]
           ∧ isspace l = false ∧ isspace t = false.

(** A word as [_to_title] leaves it: not empty, without white space,
    and unchanged by the word transformation. *)
Definition settled (w : pystr) : Prop :=
  w ≠ [] ∧ Forall nonspace w ∧ title_word w = w.

End CaseMapping.

(** The part of the Unicode tables used on concrete inputs: Basic Latin,
    the Latin-1 Supplement and U+0130 (capital I with dot above, whose
    lower case is two code points).  Code points outside these are left
    unchanged by this table. *)
Definition latin1_upper_letter (c : N) : bool :=
  (192 <=? c) && (c <=? 222) && negb (c =? 215).
Definition latin1_lower_letter (c : N) : bool :=
  (224 <=? c) && (c <=? 254) && negb (c =? 247).

Definition py_lower (c : N) : list N :=
  if (65 <=? c) && (c <=? 90) then [c + 32]
  else if latin1_upper_letter c then [c + 32]
  else if c =? 304 then [105; 775]
  else [c].

Definition py_upper (c : N) : list N :=
  if (97 <=? c) && (c <=? 122) then [c - 32]
  else if latin1_lower_letter c then [c - 32]
  else if c =? 223 then [83; 83]
  else if c =? 255 then [376]
  else if c =? 181 then [924]
  else [c].

Definition py_title (c : N) : list N :=
  if c =? 223 then [83; 115] else py_upper c.

Definition py_isspace (c : N) : bool :=
  ((9 <=? c) && (c <=? 13)) || ((28 <=? c) && (c <=? 32))
  || (c =? 133) || (c =? 160) || (c =? 5760)
  || ((8192 <=? c) && (c <=? 8202))
  || (c =? 8232) || (c =? 8233) || (c =? 8239) || (c =? 8287) || (c =? 12288).

Definition to_title : option pystr → pystr :=
  _to_title py_lower py_title py_isspace.
Definition norm_placa : option pystr → pystr := _norm_placa py_upper.

(** ** Cells, rows and the canonical header *)

(** A cell of a row or of a data frame: text, an integer, or a missing
    value ([NaN], [<NA>]).  A number with a fractional part occurs only
    as what [pd.to_numeric] makes of a text (see [Num] below). *)
Inductive Cell : Type :=
  | CStr (s : pystr)
  | CInt (z : Z)
  | CNA.

#[global] Instance Cell_eq_dec : EqDecision Cell.
Proof. solve_decision. Defined.

Definition SHEET_NAME : pystr := py "formularios".

Definition DIAS_ORD : list pystr :=
  [ py "Lunes"; py "Martes"; py "Mi" ++ [233] ++ py "rcoles"; py "Jueves";
    py "Viernes"; py "S" ++ [225] ++ py "bado"; py "Domingo" ].

Definition HORAS_ORD : list Z := seqZ 0 25.

Definition HEADERS : list pystr :=
  [ py "timestamp"; py "registro_id";
    py "nombre"; py "ci"; py "telefono"; py "email";
    py "vehiculo_marca_modelo"; py "color"; py "placa";
    py "unidad"; py "box"; py "lugar";
    py "dia_semana"; py "hora";
    py "observacion"; py "origen_app" ].

(** Position of the first occurrence of [x], as [list.index] gives it. *)
Fixpoint index_of (x : pystr) (l : list pystr) : option nat :=
  match l with
  | [] => None
  | y :: rest => if decide (x = y) then Some 0%nat else S <$> index_of x rest
  end.

(** The cell of a row under a column of the canonical header: how the
    store and the dashboard read a persisted row. *)
Definition field (name : pystr) (row : list Cell) : option Cell :=
  i ← index_of name HEADERS; row !! i.

Definition slot (row : list Cell) : option Cell * option Cell :=
  (field (py "dia_semana") row, field (py "hora") row).

(** ** The registration form *)

(** The values of the form's variables when [Guardar] is pressed:
    [nombre] and [placa] have been through the normalisers. *)
Record Form : Type := {
  nombre : pystr; ci : pystr; telefono : pystr; email : pystr;
  vehiculo : pystr; color : pystr; placa : pystr;
  unidad : pystr; box : pystr; lugar : pystr; observ : pystr;
  dias_sel : list pystr; horas_sel : list Z
}.

(** [base]: sixteen cells, in the order of [HEADERS]. *)
Definition base (ts rid : pystr) (f : Form) : list Cell :=
  [ CStr ts; CStr rid;
    CStr (nombre f); CStr (ci f); CStr (telefono f); CStr (email f);
    CStr (vehiculo f); CStr (color f); CStr (placa f);
    CStr (unidad f); CStr (box f); CStr (lugar f);
    CStr []; CStr [];
    CStr (observ f); CStr (py "streamlit") ].

(** The body of the inner loop: [row = base.copy(); row[13] = d;
    row[14] = int(h)]. *)
Definition slot_row (b : list Cell) (d : pystr) (h : Z) : list Cell :=
  <[14%nat := CInt h]> (<[13%nat := CStr d]> b).

(** The two nested loops, each iteration appending one row to [rows]. *)
Definition expand_rows (b : list Cell) (dias : list pystr) (horas : list Z)
  : list (list Cell) :=
  foldl (λ rows d, foldl (λ rows h, rows ++ [slot_row b d h]) rows horas)
        [] dias.

(** Truthiness of a string or a list: non-empty. *)
Definition truthy {A} (l : list A) : bool :=
  match l with
  | [] => false
  | _ :: _ => true
  end.

Definition required_present (f : Form) : bool :=
  truthy (nombre f) && truthy (ci f) && truthy (placa f) && truthy (unidad f)
  && truthy (dias_sel f) && truthy (horas_sel f).

(** ** The header merge *)

(** A [dict] used only for its keys: the keys in insertion order.
    Setting a key that is present keeps its position. *)
Definition dict_set_key (d : list pystr) (k : pystr) : list pystr :=
  if decide (k ∈ d) then d else d ++ [k].

(** [list(dict.fromkeys(l))] *)
Definition fromkeys (l : list pystr) : list pystr := foldl dict_set_key [] l.

(** [merged] of [_ensure_headers]. *)
Definition merge_headers (current_headers headers : list pystr) : list pystr :=
  fromkeys (current_headers ++ headers).

(** ** Exceptions, results and data frames *)

(** An exception: its class and the [repr] of its arguments.  gspread's
    [APIError] has a [__repr__] of its own, made of the status code and
    the message of the response. *)
Inductive exn : Type :=
  | Exn (exn_class exn_args : pystr)
  | APIError (code : Z) (message : pystr).

#[global] Instance exn_eq_dec : EqDecision exn.
Proof. solve_decision. Defined.

(** [repr(e)] *)
Definition repr_exn (e : exn) : pystr :=
  match e with
  | Exn exn_class exn_args => exn_class ++ py "(" ++ exn_args ++ py ")"
  | APIError code message =>
      py "APIError: [" ++ py (pretty code) ++ py "]: " ++ message
  end.

Inductive result (A : Type) : Type :=
  | Ok (a : A)
  | Raise (e : exn).
Arguments Ok {A} a.
Arguments Raise {A} e.

Definition result_bind {A B} (r : result A) (k : A → result B) : result B :=
  match r with
  | Ok a => k a
  | Raise e => Raise e
  end.

(** A [pandas.DataFrame]: the column labels and the rows of cells.  The
    columns the application names occur once in every frame it builds
    (the header written by [_ensure_headers] has no repeated label, and
    [read_csv] renames repeated labels). *)
Record DataFrame : Type := { columns : list pystr; data : list (list Cell) }.

#[global] Instance DataFrame_eq_dec : EqDecision DataFrame.
Proof. solve_decision. Defined.

(** [pd.DataFrame(columns=cols)] *)
Definition empty_frame (cols : list pystr) : DataFrame :=
  {| columns := cols; data := [] |}.

Definition KeyError (key : pystr) : exn :=
  Exn (py "KeyError") (py "'" ++ key ++ py "'").
Definition TypeError (msg : pystr) : exn :=
  Exn (py "TypeError") (py "'" ++ msg ++ py "'").
Definition ValueError (msg : pystr) : exn :=
  Exn (py "ValueError") (py "'" ++ msg ++ py "'").
Definition WorksheetNotFound (name : pystr) : exn :=
  Exn (py "WorksheetNotFound") (py "'" ++ name ++ py "'").
Definition OverflowError (msg : pystr) : exn :=
  Exn (py "OverflowError") (py "'" ++ msg ++ py "'").

(** The refusal of the Sheets API to add a worksheet under a title in
    use; the message holds double quotes (code point 34). *)
Definition duplicate_title : exn :=
  APIError 400
    (py "Invalid requests[0].addSheet: A sheet with the name " ++ [34]
     ++ py "formularios" ++ [34]
     ++ py " already exists. Please enter another name.").

(** The error of [_get_gspread_client] when no credential is configured;
    its message holds single quotes, so [repr] puts it between double
    quotes (code point 34). *)
Definition no_credentials : exn :=
  Exn (py "KeyError")
      ([34] ++ py "No se encontraron credenciales. Configure st.secrets['gcp_service_account'] o la variable GOOGLE_APPLICATION_CREDENTIALS." ++ [34]).

(** ** The world outside the script *)

Inductive Credentials : Type :=
  | CredOk
  | CredMissing
  | CredInvalid (e : exn).

(** - [credentials]: what [_get_gspread_client] finds;
    - [faults]: the outcome of the coming requests to the Sheets API, in
      order ([Some e]: that request raises [e]); past the end of the
      list requests succeed;
    - [tab]: the rows of the worksheet [formularios] as the API returns
      them, [None] when the spreadsheet has no such worksheet;
    - [csv]: the outcome of [pd.read_csv] on the published CSV;
    - [cache]: the entry of [st.cache_data] for [load_data], with the
      second at which it was stored. *)
Record World : Type := {
  credentials : Credentials;
  faults : list (option exn);
  tab : option (list (list pystr));
  csv : result DataFrame;
  cache : option (nat * DataFrame)
}.

Definition set_faults (fs : list (option exn)) (w : World) : World :=
  {| credentials := credentials w; faults := fs; tab := tab w;
     csv := csv w; cache := cache w |}.
Definition set_tab (t : option (list (list pystr))) (w : World) : World :=
  {| credentials := credentials w; faults := faults w; tab := t;
     csv := csv w; cache := cache w |}.
Definition set_cache (c : option (nat * DataFrame)) (w : World) : World :=
  {| credentials := credentials w; faults := faults w; tab := tab w;
     csv := csv w; cache := c |}.

(** Computations that read and change the world and may raise. *)
Definition M (A : Type) : Type := World → result A * World.

Definition ret {A} (a : A) : M A := λ w, (Ok a, w).
Definition raise {A} (e : exn) : M A := λ w, (Raise e, w).
Definition lift {A} (r : result A) : M A := λ w, (r, w).
Definition bind {A B} (m : M A) (k : A → M B) : M B :=
  λ w, match m w with
       | (Ok a, w') => k a w'
       | (Raise e, w') => (Raise e, w')
       end.
(** [try: m  except Exception as e: h e] *)
Definition try_except {A} (m : M A) (h : exn → M A) : M A :=
  λ w, match m w with
       | (Ok a, w') => (Ok a, w')
       | (Raise e, w') => h e w'
       end.

Declare Scope py_scope.
Delimit Scope py_scope with py.
Notation "x <- m ;; k" := (bind m (λ x, k))
  (at level 20, m at level 99, k at level 200, only parsing) : py_scope.
Notation "m ;; k" := (bind m (λ _, k))
  (at level 100, k at level 200, right associativity) : py_scope.
Local Open Scope py_scope.

(** ** The gspread client *)

(** One request to the Sheets API. *)
Definition request : M unit :=
  λ w, match faults w with
       | [] => (Ok (), w)
       | None :: fs => (Ok (), set_faults fs w)
       | Some e :: fs => (Raise e, set_faults fs w)
       end.

Definition _get_gspread_client : M unit :=
  λ w, match credentials w with
       | CredOk => (Ok (), w)
       | CredMissing => (Raise no_credentials, w)
       | CredInvalid e => (Raise e, w)
       end.

(** [client.open_by_key(spreadsheet_id)] *)
Definition open_by_key : M unit := request.

(** [sh.worksheet(sheet_name)] *)
Definition worksheet : M unit :=
  request ;;
  λ w, match tab w with
       | Some _ => (Ok (), w)
       | None => (Raise (WorksheetNotFound SHEET_NAME), w)
       end.

(** [sh.add_worksheet(title=sheet_name, rows=1000, cols=40)]: refused
    when a worksheet of that title exists. *)
Definition add_worksheet : M unit :=
  request ;;
  λ w, match tab w with
       | Some _ => (Raise (duplicate_title), w)
       | None => (Ok (), set_tab (Some []) w)
       end.

Definition _open_or_create_sheet : M unit :=
  open_by_key ;;
  try_except worksheet (λ _, add_worksheet).

(** [fill_gaps]: gspread pads the rows it returns with empty strings to
    one width. *)
Definition pad_row (width : nat) (r : list pystr) : list pystr :=
  r ++ replicate (width - length r) [].

Definition fill_gaps (rows : list (list pystr)) : list (list pystr) :=
  pad_row (max_list (length <$> rows)) <$> rows.

Definition rows_of (w : World) : list (list pystr) := default [] (tab w).

(** [ws.get_all_values()]: one request; for a worksheet without values
    gspread 6 returns one empty row, [[[]]]. *)
Definition get_all_values : M (list (list pystr)) :=
  request ;;
  λ w, (Ok match fill_gaps (rows_of w) with
           | [] => [[]]
           | values => values
           end, w).

(** The text of a cell once in the sheet. *)
Definition render (c : Cell) : pystr :=
  match c with
  | CStr s => s
  | CInt z => py (pretty z)
  | CNA => []
  end.

(** [ws.append_row(values)] *)
Definition append_row (values : list pystr) : M unit :=
  request ;; λ w, (Ok (), set_tab (Some (rows_of w ++ [values])) w).

(** [ws.delete_rows(1)] *)
Definition delete_rows_1 : M unit :=
  request ;; λ w, (Ok (), set_tab (Some (tail (rows_of w))) w).

(** [ws.insert_row(values, 1)]: two requests, the first inserts an
    empty row above the first, the second writes the values into it. *)
Definition insert_row_1 (values : list pystr) : M unit :=
  request ;;
  (λ w, (Ok (), set_tab (Some ([] :: rows_of w)) w)) ;;
  request ;;
  λ w, (Ok (), set_tab (Some (values :: tail (rows_of w))) w).

Definition render_row (row : list Cell) : list pystr := render <$> row.

(** [ws.append_rows(rows)] *)
Definition append_rows (rows : list (list Cell)) : M unit :=
  request ;;
  λ w, (Ok (), set_tab (Some (rows_of w ++ (render_row <$> rows))) w).

Definition _ensure_headers (headers : list pystr) : M unit :=
  vals <- get_all_values ;;
  match vals with
  | [] => append_row headers
  | current_headers :: _ =>
      if decide (current_headers = headers) then ret ()
      else
        let merged := merge_headers current_headers headers in
        delete_rows_1 ;; insert_row_1 merged
  end.


(** Credentials, published CSV and cache are the same in both worlds. *)
Definition kept (w w' : World) : Prop :=
  credentials w' = credentials w ∧ csv w' = csv w ∧ cache w' = cache w.

(** No operation on the store touches the credentials, the published
    CSV or the cache, whether it returns or raises. *)
Definition keeps {A} (m : M A) : Prop := ∀ w r w', m w = (r, w') → kept w w'.


(** The body of the [try] of [append_form_rows]. *)
Definition append_attempt (rows : list (list Cell)) : M (bool * pystr) :=
  _get_gspread_client ;;
  _open_or_create_sheet ;;
  _ensure_headers HEADERS ;;
  append_rows rows ;;
  ret (true, py "OK").

Definition append_form_rows (rows : list (list Cell)) : M (bool * pystr) :=
  try_except (append_attempt rows) (λ e, ret (false, repr_exn e)).

(** ** Reading the store: [load_data] *)

(** [pd.DataFrame(rows, columns=cols)] for rows of text: the width of
    the data is that of its longest row, shorter rows are completed with
    missing values, and a width other than the number of labels is
    refused. *)
Definition frame_of_values (rows : list (list pystr)) (cols : list pystr)
  : result DataFrame :=
  let width := max_list (length <$> rows) in
  if decide (rows = [] ∨ width = length cols) then
    Ok {| columns := cols;
          data := (λ r, (CStr <$> r) ++ replicate (width - length r) CNA)
                    <$> rows |}
  else
    Raise (ValueError (py (pretty (length cols))
                       ++ py " columns passed, passed data had "
                       ++ py (pretty width) ++ py " columns")).

(** What [pd.to_numeric(..., errors="coerce")] reads in one cell: an
    integer ([Whole], a Python [int]: an integer literal or an integer
    cell); a float whose value is a whole number ([FloatWhole]: [8.0],
    [1e3]); a float strictly between [floor] and [floor + 1]
    ([Fractional]); an infinity; or [NaN], which stands for a missing
    value and for a text that is not a number. *)
Inductive Num : Type :=
  | Whole (z : Z)
  | FloatWhole (z : Z)
  | Fractional (floor : Z)
  | Infinite (positive : bool)
  | NotANumber.

#[global] Instance Num_eq_dec : EqDecision Num.
Proof. solve_decision. Defined.

Definition int64_min : Z := (- 2 ^ 63)%Z.
Definition int64_max : Z := (2 ^ 63 - 1)%Z.
Definition uint64_max : Z := (2 ^ 64 - 1)%Z.

Definition in_int64 (z : Z) : bool :=
  ((int64_min <=? z) && (z <=? int64_max))%Z.

(** The float64 nearest to an integer, ties going to the even mantissa
    of 53 bits.  An integer below [2^53] in magnitude is a float64.  (An
    integer beyond the range of float64, [1.8e308], would be infinite;
    the cast refuses it either way.) *)
Definition float64_of_Z (z : Z) : Z :=
  let a := Z.abs z in
  if (a <? 2 ^ 53)%Z then z
  else
    let shift := (Z.log2 a - 52)%Z in
    let q := Z.shiftr a shift in
    let r := (a - Z.shiftl q shift)%Z in
    let half := Z.shiftl 1 (shift - 1) in
    let q' := if ((half <? r) || ((r =? half) && Z.odd q))%Z
              then (q + 1)%Z else q in
    (Z.sgn z * Z.shiftl q' shift)%Z.

(** The dtype of a column. *)
Inductive Dtype : Type := int64 | uint64 | float64 | object.

#[global] Instance Dtype_eq_dec : EqDecision Dtype.
Proof. solve_decision. Defined.

(** The flags that [lib.maybe_convert_numeric] raises on a cell: an
    integer above the range of int64 that uint64 holds, a negative
    integer, a missing value, and what makes the column one of
    floats. *)
Definition seen_uint (n : Num) : bool :=
  match n with
  | Whole z => ((int64_max <? z) && (z <=? uint64_max))%Z
  | _ => false
  end.

Definition seen_sint (n : Num) : bool :=
  match n with
  | Whole z => ((int64_min <=? z) && (z <? 0))%Z
  | _ => false
  end.

Definition seen_null (n : Num) : bool :=
  match n with
  | NotANumber => true
  | _ => false
  end.

Definition seen_float (n : Num) : bool :=
  match n with
  | Whole z => ((z <? int64_min) || (uint64_max <? z))%Z
  | _ => true
  end.

(** The dtype [to_numeric] gives a column read cell by cell.  With an
    integer that only uint64 holds beside a negative integer or a
    missing value, the column comes back as it was ([object]). *)
Definition dtype_of (col : list Num) : Dtype :=
  if existsb seen_uint col && (existsb seen_null col || existsb seen_sint col)
  then object
  else if existsb seen_float col then float64
  else if existsb seen_uint col then uint64
  else int64.

(** A number as a float64. *)
Definition as_float64 (n : Num) : Num :=
  match n with
  | Whole z | FloatWhole z => FloatWhole (float64_of_Z z)
  | _ => n
  end.

(** A number as the column of dtype [d] holds it. *)
Definition column_value (d : Dtype) (n : Num) : Num :=
  match d with
  | float64 => as_float64 n
  | _ => n
  end.

(** The [Int64] cell of a number, when the cast goes through. *)
Definition int64_cell (n : Num) : Cell :=
  match n with
  | Whole z | FloatWhole z => CInt z
  | _ => CNA
  end.

(** A value that [Int64] holds: missing, or a whole number in the range
    of int64. *)
Definition castable (n : Num) : bool :=
  match n with
  | Whole z | FloatWhole z => in_int64 z
  | NotANumber => true
  | _ => false
  end.

(** The order of floats, [NaN] apart. *)
Definition float_key (n : Num) : Z * Z * Z :=
  match n with
  | Whole z | FloatWhole z => (0, z, 0)%Z
  | Fractional f => (0, f, 1)%Z
  | Infinite true => (1, 0, 0)%Z
  | Infinite false => (-1, 0, 0)%Z
  | NotANumber => (-2, 0, 0)%Z
  end.

Definition float_lt (a b : Num) : bool :=
  let '(a1, a2, a3) := float_key a in
  let '(b1, b2, b3) := float_key b in
  ((a1 <? b1) || ((a1 =? b1) && ((a2 <? b2) || ((a2 =? b2) && (a3 <? b3)))))%Z.

(** [values[np.nanargmax(values)]]: the first greatest value that is not
    [NaN]; [None] when there is none. *)
Definition nanmax_step (best : option Num) (n : Num) : option Num :=
  match n, best with
  | NotANumber, _ => best
  | _, None => Some n
  | _, Some b => if float_lt b n then Some n else best
  end.

Definition nanmax (vals : list Num) : option Num := foldl nanmax_step None vals.

(** A number that [Int64] holds both as it is read and as the float64
    that a column of floats makes of it. *)
Definition fits_int64 (n : Num) : bool := castable n && castable (as_float64 n).

Definition cannot_safely_cast (dtype : string) : exn :=
  TypeError (py "cannot safely cast non-equivalent " ++ py dtype
             ++ py " to int64").

Definition float_infinity : exn :=
  OverflowError (py "cannot convert float infinity to integer").

Definition int_too_large : exn :=
  OverflowError (py "Python int too large to convert to C long").

(** What stops the conversion of an object array of floats to int64 at
    one element. *)
Definition object_overflow (n : Num) : option exn :=
  match n with
  | Infinite _ => Some float_infinity
  | Whole z | FloatWhole z => if in_int64 z then None else Some int_too_large
  | _ => None
  end.

(** [.astype("Int64")] on the result of [to_numeric], as pandas 2 does
    it ([_coerce_to_data_and_mask], then [_safe_cast]).
    - An int64 column is taken as it is; a uint64 column holds a value
      above the range and is refused.
    - In a float64 column the missing values are masked.  The greatest
      value is converted with [int()], which refuses an infinity; when
      it has a fractional part the column goes on as an object array,
      whose conversion stops at the first element that int64 cannot
      hold, and is refused at the end for not being equivalent.
      Otherwise the floats are cast and compared with the result.
    - A column that [to_numeric] returned as it was holds an integer
      above the range of int64, and the conversion of its texts fails;
      the model reports the failure on that integer, whereas pandas
      stops at the first text that [int()] refuses. *)
Definition astype_Int64 (col : Dtype * list Num) : result (list Cell) :=
  let vals := col.2 in
  match col.1 with
  | int64 => Ok (int64_cell <$> vals)
  | uint64 => Raise (cannot_safely_cast "uint64")
  | object => Raise int_too_large
  | float64 =>
      match nanmax vals with
      | None => Ok (int64_cell <$> vals)
      | Some (Infinite _) => Raise float_infinity
      | Some (Fractional _) =>
          match head (omap object_overflow vals) with
          | Some e => Raise e
          | None => Raise (cannot_safely_cast "object")
          end
      | Some _ =>
          if forallb castable vals then Ok (int64_cell <$> vals)
          else Raise (cannot_safely_cast "float64")
      end
  end.

(** [pd.Categorical(col, categories=DIAS_ORD, ordered=True)]: a value
    outside the categories becomes missing. *)
Definition categorical (c : Cell) : Cell :=
  match c with
  | CStr d => if decide (d ∈ DIAS_ORD) then c else CNA
  | _ => CNA
  end.

Definition count_label (name : pystr) (cols : list pystr) : nat :=
  length (filter (λ c, c = name) cols).

Definition get_column (i : nat) (df : DataFrame) : list Cell :=
  (λ row, default CNA (row !! i)) <$> data df.

Definition set_column (i : nat) (vals : list Cell) (df : DataFrame)
  : DataFrame :=
  {| columns := columns df;
     data := zip_with (λ row v, <[i := v]> row) (data df) vals |}.

(** [st.cache_data(ttl=60)] *)
Definition TTL : nat := 60.

(** [st.cache_data.clear()] *)
Definition cache_clear : M unit := λ w, (Ok (), set_cache None w).

Definition read_csv : M DataFrame := λ w, (csv w, w).

Section Pandas.

(** How [pd.to_numeric] reads a piece of text. *)
Variable to_numeric_str : pystr → Num.

Definition to_numeric (c : Cell) : Num :=
  match c with
  | CStr s => to_numeric_str s
  | CInt z => Whole z
  | CNA => NotANumber
  end.

(** [pd.to_numeric(col, errors="coerce")]: the dtype of the column and
    its values. *)
Definition to_numeric_column (col : list Cell) : Dtype * list Num :=
  let nums := to_numeric <$> col in
  (dtype_of nums, column_value (dtype_of nums) <$> nums).

(** [df["hora"] = pd.to_numeric(df["hora"], errors="coerce").astype("Int64")],
    under [if "hora" in df.columns].  With the label repeated,
    [df["hora"]] is a frame, which [to_numeric] refuses. *)
Definition normalise_hora (df : DataFrame) : result DataFrame :=
  match index_of (py "hora") (columns df) with
  | None => Ok df
  | Some i =>
      if decide (1 < count_label (py "hora") (columns df))%nat then
        Raise (TypeError (py "arg must be a list, tuple, 1-d array, or Series"))
      else
        result_bind (astype_Int64 (to_numeric_column (get_column i df)))
                    (λ vals, Ok (set_column i vals df))
  end.

(** [df["dia_semana"] = pd.Categorical(df["dia_semana"], ...)], under
    [if "dia_semana" in df.columns]. *)
Definition normalise_dia (df : DataFrame) : result DataFrame :=
  match index_of (py "dia_semana") (columns df) with
  | None => Ok df
  | Some i =>
      if decide (1 < count_label (py "dia_semana") (columns df))%nat then
        Raise (Exn (py "NotImplementedError")
                   (py "'> 1 ndim Categorical are not supported at this time'"))
      else Ok (set_column i (categorical <$> get_column i df) df)
  end.

(** The lines after the [try] of [load_data]. *)
Definition normalise (df : DataFrame) : result DataFrame :=
  result_bind (normalise_hora df) normalise_dia.

(** The body of the outer [try] of [load_data].  [inl df]: the
    function returns [df] at once ([return pd.DataFrame(columns=HEADERS)]);
    [inr df]: [df] goes on to the normalisations. *)
Definition primary : M (DataFrame + DataFrame) :=
  _get_gspread_client ;;
  _open_or_create_sheet ;;
  _ensure_headers HEADERS ;;
  values <- get_all_values ;;
  match values with
  | [] => ret (inl (empty_frame HEADERS))
  | header :: rows =>
      df <- lift (frame_of_values rows header) ;; ret (inr df)
  end.

(** The body of the inner [try]. *)
Definition secondary : M (DataFrame + DataFrame) :=
  df <- read_csv ;; ret (inr df).

(** The two [try] with their handlers. *)
Definition fetch : M (DataFrame + DataFrame) :=
  try_except primary
    (λ _, try_except secondary (λ _, ret (inr (empty_frame HEADERS)))).

Definition load_data : M DataFrame :=
  r <- fetch ;;
  match r with
  | inl df => ret df
  | inr df => lift (normalise df)
  end.

(** [load_data] behind [st.cache_data(ttl=60)], called at second
    [now]: a stored value younger than [TTL] is served; otherwise the
    function runs and its value, when it returns one, is stored. *)
Definition load_data_cached (now : nat) : M DataFrame :=
  λ w,
    let run :=
      match load_data w with
      | (Ok df, w') => (Ok df, set_cache (Some (now, df)) w')
      | (Raise e, w') => (Raise e, w')
      end in
    match cache w with
    | Some (t, df) => if decide (now < t + TTL)%nat then (Ok df, w) else run
    | None => run
    end.

End Pandas.

(** ** A reader of numerals

    How [to_numeric] reads the texts of the examples: decimal numerals
    with an optional sign, fraction and exponent, between optional
    white space, and the names of the infinities and of [NaN].  A
    numeral without point and exponent is an integer; any other is a
    float, here the float64 nearest to its value. *)
Definition is_digit (c : N) : bool := (48 <=? c) && (c <=? 57).

Definition is_ascii_space (c : N) : bool :=
  (c =? 32) || ((9 <=? c) && (c <=? 13)).

Definition digits_value (ds : pystr) : Z :=
  foldl (λ acc c, acc * 10 + Z.of_N (c - 48))%Z 0%Z ds.

(** The leading digits of a text and what follows them. *)
Fixpoint span_digits (s : pystr) : pystr * pystr :=
  match s with
  | [] => ([], [])
  | c :: rest =>
      if is_digit c then
        let r := span_digits rest in (c :: r.1, r.2)
      else ([], s)
  end.

(** An optional sign ([true]: minus) and what follows it. *)
Definition signed (s : pystr) : bool * pystr :=
  match s with
  | 45 :: rest => (true, rest)
  | 43 :: rest => (false, rest)
  | _ => (false, s)
  end.

Definition negate (n : Num) : Num :=
  match n with
  | Whole z => Whole (- z)
  | FloatWhole z => FloatWhole (- z)
  | Fractional f => Fractional (- f - 1)
  | Infinite b => Infinite (negb b)
  | NotANumber => NotANumber
  end.

(** The float64 nearest to the rational [m / d], for [0 ≤ m] and
    [0 < d], ties to even: the mantissa [mant] of at most 53 bits and
    the exponent [e] with [m / d] nearest to [mant * 2 ^ e]. *)
Definition float64_of_Q (m d : Z) : Num :=
  if (m =? 0)%Z then FloatWhole 0
  else
    let l := (Z.log2 m - Z.log2 d)%Z in
    let reaches := if (0 <=? l)%Z then (d * 2 ^ l <=? m)%Z
                   else (d <=? m * 2 ^ (- l))%Z in
    let lg := if reaches then l else (l - 1)%Z in
    let e := Z.max (lg - 52) (-1074) in
    let num := if (e <? 0)%Z then (m * 2 ^ (- e))%Z else m in
    let den := if (e <? 0)%Z then d else (d * 2 ^ e)%Z in
    let q := (num / den)%Z in
    let r := (num mod den)%Z in
    let mant := if ((den <? 2 * r) || ((2 * r =? den) && Z.odd q))%Z
                then (q + 1)%Z else q in
    if (0 <=? e)%Z then
      if (2 ^ 1024 <=? mant * 2 ^ e)%Z then Infinite true
      else FloatWhole (mant * 2 ^ e)
    else
      let p := (2 ^ (- e))%Z in
      if (mant mod p =? 0)%Z then FloatWhole (mant / p)
      else Fractional (mant / p).

(** The float of the numeral with digits [ds] scaled by [10 ^ k]. *)
Definition float_of_digits (ds : pystr) (k : Z) : Num :=
  if (0 <=? k)%Z then float64_of_Q (digits_value ds * 10 ^ k) 1
  else float64_of_Q (digits_value ds) (10 ^ (- k)).

(** The exponent part of a numeral: nothing, or [e] or [E], an optional
    sign and digits. *)
Definition exponent (s : pystr) : option Z :=
  match s with
  | [] => Some 0%Z
  | c :: rest =>
      if (c =? 101) || (c =? 69) then
        let ds := (signed rest).2 in
        if truthy ds && forallb is_digit ds then
          Some (if (signed rest).1 then (- digits_value ds)%Z
                else digits_value ds)
        else None
      else None
  end.

(** The names that are read when the text is not a numeral. *)
Definition special_float (s : pystr) : Num :=
  let t := s ≫= py_lower in
  if decide (t ∈ [py "inf"; py "+inf"; py "infinity"; py "+infinity"])
  then Infinite true
  else if decide (t ∈ [py "-inf"; py "-infinity"]) then Infinite false
  else NotANumber.

Definition decimal (s : pystr) : Num :=
  let t := strip is_ascii_space s in
  let neg := (signed t).1 in
  let int_digits := (span_digits (signed t).2).1 in
  let rest := (span_digits (signed t).2).2 in
  let sign := λ n : Num, if neg then negate n else n in
  match rest with
  | [] =>
      if truthy int_digits then sign (Whole (digits_value int_digits))
      else special_float s
  | c :: after =>
      let point := c =? 46 in
      let frac_digits := if point then (span_digits after).1 else [] in
      let tail_part := if point then (span_digits after).2 else rest in
      match exponent tail_part with
      | Some e =>
          if truthy int_digits || truthy frac_digits then
            sign (float_of_digits (int_digits ++ frac_digits)
                    (e - Z.of_nat (length frac_digits)))
          else special_float s
      | None => special_float s
      end
  end.

(** ** Saving a submission *)

Inductive Notice : Type :=
  | MissingFields
  | Saved (n : nat)
  | NotSaved (msg : pystr).

(** The [if submitted:] block of the registration tab, with the time
    stamp and the identifier drawn for this submission. *)
Definition submit (ts rid : pystr) (f : Form) : M Notice :=
  if negb (required_present f) then ret MissingFields
  else
    let rows := expand_rows (base ts rid f) (dias_sel f) (horas_sel f) in
    r <- append_form_rows rows ;;
    if r.1 then cache_clear ;; ret (Saved (length rows))
    else ret (NotSaved r.2).

(** ** The dashboard *)

(** [df.empty]: no row or no column. *)
Definition df_empty (df : DataFrame) : bool :=
  negb (truthy (data df)) || negb (truthy (columns df)).

(** [q[q[col].isin(values)]] *)
Definition isin_filter (col : pystr) (values : list Cell) (q : DataFrame)
  : result DataFrame :=
  match index_of col (columns q) with
  | None => Raise (KeyError col)
  | Some i =>
      Ok {| columns := columns q;
            data := filter (λ row, default CNA (row !! i) ∈ values) (data q) |}
  end.

(** [if values: q = q[q[col].isin(values)]] *)
Definition filter_dim (col : pystr) (values : list Cell) (q : DataFrame)
  : result DataFrame :=
  if truthy values then isin_filter col values q else Ok q.

(** The three filters of the dashboard, on the selections of the three
    multiselects. *)
Definition apply_filters (f_unidades : list Cell) (f_dias : list pystr)
    (f_horas : list Z) (df : DataFrame) : result DataFrame :=
  let q := df in
  result_bind (filter_dim (py "unidad") f_unidades q)
    (λ q, result_bind (filter_dim (py "dia_semana") (CStr <$> f_dias) q)
            (λ q, filter_dim (py "hora") (CInt <$> f_horas) q)).

(** A row passes a selection on a column when the selection is empty or
    holds the row's cell of that column. *)
Definition passes (col : pystr) (values : list Cell) (cols : list pystr)
    (row : list Cell) : Prop :=
  values = [] ∨ ∃ i, index_of col cols = Some i
                     ∧ default CNA (row !! i) ∈ values.

(** What the dashboard tab shows: the warning, or the panels computed
    from the filtered frame. *)
Inductive Tablero : Type :=
  | NoData
  | Panels (q : DataFrame).

(** The options of the three multiselects are read from the loaded
    frame before any filter runs.  [df.get("unidad", [])] gives a list
    when the label is missing, and a list has no [dropna];
    [df["dia_semana"]] and [df["hora"]] raise [KeyError].  (The message
    of the first holds single quotes, so [repr] puts it between double
    quotes.)  The options themselves are not computed here: the
    selections are inputs of [tablero], and on a frame that [load_data]
    has returned, whose hours are integers or missing, the
    comprehensions over the values do not raise. *)
Definition no_dropna : exn :=
  Exn (py "AttributeError")
      ([34] ++ py "'list' object has no attribute 'dropna'" ++ [34]).

Definition read_options (df : DataFrame) : result unit :=
  match index_of (py "unidad") (columns df) with
  | None => Raise no_dropna
  | Some _ =>
      match index_of (py "dia_semana") (columns df) with
      | None => Raise (KeyError (py "dia_semana"))
      | Some _ =>
          match index_of (py "hora") (columns df) with
          | None => Raise (KeyError (py "hora"))
          | Some _ => Ok ()
          end
      end
  end.

Definition tablero (f_unidades : list Cell) (f_dias : list pystr)
    (f_horas : list Z) (df : DataFrame) : result Tablero :=
  if df_empty df then Ok NoData
  else
    result_bind (read_options df)
      (λ _, result_bind (apply_filters f_unidades f_dias f_horas df)
              (λ q, Ok (Panels q))).

(** [col.nunique()]: the number of distinct values, missing ones left
    out. *)
Definition nunique (col : list Cell) : nat :=
  length (remove_dups (filter (λ c, c ≠ CNA) col)).

(** [q[name].nunique() if name in q.columns else 0] *)
Definition nunique_or_0 (name : pystr) (q : DataFrame) : nat :=
  match index_of name (columns q) with
  | Some i => nunique (get_column i q)
  | None => 0
  end.

Record Metrics : Type := {
  registros : nat;
  usuarios_unicos : nat;
  vehiculos_unicos : nat;
  unidades_activas : nat
}.

Definition metrics (q : DataFrame) : Metrics :=
  {| registros := length (data q);
     usuarios_unicos := nunique_or_0 (py "ci") q;
     vehiculos_unicos := nunique_or_0 (py "placa") q;
     unidades_activas := nunique_or_0 (py "unidad") q |}.

(** [.count()] of a group: its rows whose [registro_id] is not missing. *)
Definition count_group {K} `{EqDecision K} (key_of : list Cell → K)
    (r : nat) (rows : list (list Cell)) (k : K) : nat :=
  length (filter (λ row, key_of row = k ∧ default CNA (row !! r) ≠ CNA) rows).

(** The keys of the groups, each once, in the order of first
    occurrence. *)
Fixpoint distinct {K} `{EqDecision K} (seen : list K) (l : list K) : list K :=
  match l with
  | [] => []
  | k :: rest =>
      if decide (k ∈ seen) then distinct seen rest
      else k :: distinct (k :: seen) rest
  end.

(** [q.groupby(key, dropna=False)["registro_id"].count().reset_index(name="n")]:
    one entry per value of the key, missing included.  pandas lists the
    groups by increasing key; both uses sort the entries by [n] next. *)
Definition groupby_count (key : pystr) (q : DataFrame)
  : result (list (Cell * nat)) :=
  match index_of key (columns q) with
  | None => Raise (KeyError key)
  | Some k =>
      match index_of (py "registro_id") (columns q) with
      | None => Raise (KeyError (py "Column not found: registro_id"))
      | Some r =>
          let key_of := λ row : list Cell, default CNA (row !! k) in
          Ok ((λ v, (v, count_group key_of r (data q) v))
                <$> distinct [] (key_of <$> data q))
      end
  end.

(** [.sort_values("n", ascending=False)]: the entries by decreasing
    count.  The sort is not stable: entries of equal count come in an
    order the program does not fix. *)
Definition count_ge (a b : Cell * nat) : Prop := (b.2 ≤ a.2)%nat.

#[global] Instance count_ge_dec a b : Decision (count_ge a b).
Proof. unfold count_ge; apply _. Defined.

Definition sort_values_desc (g s : list (Cell * nat)) : Prop :=
  s ≡ₚ g ∧ Sorted count_ge s.


Definition by_unidad (q : DataFrame) (out : list (Cell * nat)) : Prop :=
  ∃ g, groupby_count (py "unidad") q = Ok g ∧ sort_values_desc g out.


(** The heat map's table.  [observed] is the default of [groupby] for a
    categorical key: [false] (pandas before 3.0) lists every day of
    [DIAS_ORD] against every hour present, [true] only the pairs
    present. *)
Definition day_rank (c : Cell) : nat :=
  match c with
  | CStr d => default 7%nat (index_of d DIAS_ORD)
  | _ => 7%nat
  end.

Definition hora_le (a b : Cell) : Prop :=
  match a, b with
  | CInt x, CInt y => (x ≤ y)%Z
  | CInt _, _ => True
  | _, CInt _ => False
  | _, _ => True
  end.

#[global] Instance hora_le_dec a b : Decision (hora_le a b).
Proof. destruct a, b; simpl; apply _. Defined.

Definition slot_le (a b : (Cell * Cell) * nat) : Prop :=
  (day_rank a.1.1 < day_rank b.1.1)%nat
  ∨ (day_rank a.1.1 = day_rank b.1.1 ∧ hora_le a.1.2 b.1.2).

#[global] Instance slot_le_dec a b : Decision (slot_le a b).
Proof. unfold slot_le; apply _. Defined.

Definition grid (observed : bool) (q : DataFrame)
  : result (list ((Cell * Cell) * nat)) :=
  match index_of (py "dia_semana") (columns q) with
  | None => Raise (KeyError (py "dia_semana"))
  | Some d =>
      match index_of (py "hora") (columns q) with
      | None => Raise (KeyError (py "hora"))
      | Some h =>
          match index_of (py "registro_id") (columns q) with
          | None => Raise (KeyError (py "Column not found: registro_id"))
          | Some r =>
              let key_of := λ row : list Cell,
                (default CNA (row !! d), default CNA (row !! h)) in
              let present := distinct [] (key_of <$> data q) in
              let keys :=
                if observed then present
                else
                  day ← distinct [] ((CStr <$> DIAS_ORD) ++ present.*1);
                  hora ← distinct [] (present.*2);
                  [(day, hora)] in
              Ok (merge_sort slot_le
                    ((λ k, (k, count_group key_of r (data q) k)) <$> keys))
          end
      end
  end.

(** ** Worlds and inputs used in the examples *)

Definition scenario : Form :=
  {| nombre := to_title (Some (py "juan de la cruz"));
     ci := py "1234567-8"; telefono := py "+595981000000";
     email := py "juan@example.com";
     vehiculo := py "Toyota Corolla"; color := py "Blanco";
     placa := norm_placa (Some (py "ab-123.c"));
     unidad := py "Anestesia"; box := py "Box 12"; lugar := py "Fila B";
     observ := py "turno";
     dias_sel := [py "Lunes"; py "Martes"]; horas_sel := [8; 9]%Z |}.

(** A row of the sheet as text, for a person, a unit, a day and an hour. *)
Definition sheet_row (name unit day hour : pystr) : list pystr :=
  [ py "2024-05-06T07:00:00"; py "rid-" ++ name;
    name; py "1234567"; []; [];
    []; []; py "ABC123";
    unit; []; [];
    day; hour;
    []; py "streamlit" ].



(** A loaded frame: rows of cells under the canonical header. *)
Definition frame_row (name unit day : pystr) (hour : Z) : list Cell :=
  <[13%nat := CInt hour]> (CStr <$> sheet_row name unit day []).


(** Rows of two units. *)
Definition two_units : DataFrame :=
  {| columns := HEADERS;
     data := [ frame_row (py "Ana") (py "Anestesia") (py "Lunes") 8;
               frame_row (py "Ana") (py "Anestesia") (py "Martes") 9;
               frame_row (py "Luis") (py "Cirugia") (py "Lunes") 8 ] |}.

(** A store that answers every request and whose sheet holds one row
    with the hour [8.5], typed in by hand. *)
Definition half_hour_world : World :=
  {| credentials := CredOk; faults := [];
     tab := Some [HEADERS;
                  sheet_row (py "Ana") (py "Anestesia") (py "Lunes") (py "8.5")];
     csv := Raise (Exn (py "HTTPError") (py "'HTTP Error 404: Not Found'"));
     cache := None |}.

(** A store that answers every request, with a header and a stale cache
    entry. *)
Definition fresh_world : World :=
  {| credentials := CredOk; faults := [];
     tab := Some [HEADERS];
     csv := Raise (Exn (py "HTTPError") (py "'HTTP Error 404: Not Found'"));
     cache := Some (0%nat, empty_frame HEADERS) |}.



(** ** The inputs of the registration form *)

(** The text typed into the inputs and the two selections, before the
    normalisers are applied. *)
Record RawForm : Type := {
  raw_nombre : pystr; raw_ci : pystr; raw_telefono : pystr;
  raw_email : pystr; raw_vehiculo : pystr; raw_color : pystr;
  raw_placa : pystr; raw_unidad : pystr; raw_box : pystr;
  raw_lugar : pystr; raw_observ : pystr;
  raw_dias : list pystr; raw_horas : list Z
}.

(** The variables of the form: [nombre = _to_title(st.text_input(...))],
    [placa = _norm_placa(st.text_input(...))], the others as typed. *)
Definition read_form (raw : RawForm) : Form :=
  {| nombre := to_title (Some (raw_nombre raw));
     ci := raw_ci raw; telefono := raw_telefono raw; email := raw_email raw;
     vehiculo := raw_vehiculo raw; color := raw_color raw;
     placa := norm_placa (Some (raw_placa raw));
     unidad := raw_unidad raw; box := raw_box raw; lugar := raw_lugar raw;
     observ := raw_observ raw;
     dias_sel := raw_dias raw; horas_sel := raw_horas raw |}.

(** The three characters [_norm_placa] removes. *)
Definition is_separator (c : N) : Prop := c = 45 ∨ c = 32 ∨ c = 46.

#[global] Instance passes_dec col values cols row :
  Decision (passes col values cols row).
Proof.
  unfold passes. destruct (index_of col cols) as [i|].
  - destruct (decide (values = [])) as [|Hne]; [left; by left|].
    destruct (decide (default CNA (row !! i) ∈ values)) as [Hin|Hout].
    + left. right. by exists i.
    + right. intros [?|(j & [= <-] & ?)]; done.
  - destruct (decide (values = [])) as [|Hne]; [left; by left|].
    right. intros [?|(j & ? & _)]; done.
Defined.

(** The rows of a frame whose cell under a label is not missing. *)
Definition present_under (name : pystr) (q : DataFrame) : list (list Cell) :=
  match index_of name (columns q) with
  | Some r => filter (λ row, default CNA (row !! r) ≠ CNA) (data q)
  | None => []
  end.


(** The cell of a row at a position, missing when the row is shorter. *)
Definition cell (k : nat) (row : list Cell) : Cell := default CNA (row !! k).


(** What the normalisations of [load_data] do to one cell of the frame
    [df], by its position: under [hora] the number read, as the dtype
    of the whole column has it; under [dia_semana] the day, when it is
    one of [DIAS_ORD]. *)
Definition hora_dtype (to_numeric_str : pystr → Num) (df : DataFrame) : Dtype :=
  match index_of (py "hora") (columns df) with
  | Some i => dtype_of (to_numeric to_numeric_str <$> get_column i df)
  | None => int64
  end.

Definition normalised_cell (to_numeric_str : pystr → Num)
    (df : DataFrame) (k : nat) (c : Cell) : Cell :=
  if decide (index_of (py "hora") (columns df) = Some k) then
    int64_cell (column_value (hora_dtype to_numeric_str df)
                  (to_numeric to_numeric_str c))
  else if decide (index_of (py "dia_semana") (columns df) = Some k)
       then categorical c
  else c.

(** A fetched frame, its hours and days still text, and the same frame
    after the normalisations. *)
Definition text_frame : DataFrame :=
  {| columns := HEADERS;
     data := [ CStr <$> sheet_row (py "Ana") (py "Anestesia") (py "Lunes")
                          (py "8");
               CStr <$> sheet_row (py "Luis") (py "Cirugia") (py "Feriado")
                          (py "ocho") ] |}.

Definition typed_frame : DataFrame :=
  {| columns := HEADERS;
     data := [ <[13%nat := CInt 8]>
                 (CStr <$> sheet_row (py "Ana") (py "Anestesia") (py "Lunes")
                             (py "8"));
               <[12%nat := CNA]>
                 (<[13%nat := CNA]>
                    (CStr <$> sheet_row (py "Luis") (py "Cirugia")
                                (py "Feriado") (py "ocho"))) ] |}.

(** A world without credentials whose published CSV can be read. *)
Definition csv_only_world : World :=
  {| credentials := CredMissing; faults := [];
     tab := Some [HEADERS];
     csv := Ok text_frame;
     cache := None |}.

(** A world where neither source can be read. *)
Definition dark_world : World :=
  {| credentials := CredOk;
     faults := [Some (APIError 503 (py "The service is currently unavailable."))];
     tab := Some [HEADERS];
     csv := Raise (Exn (py "HTTPError") (py "'HTTP Error 404: Not Found'"));
     cache := None |}.


(** A form whose name is white space and whose plate is separators. *)
Definition blank_input : RawForm :=
  {| raw_nombre := py "   "; raw_ci := py "1234567";
     raw_telefono := []; raw_email := [];
     raw_vehiculo := []; raw_color := [];
     raw_placa := py "-. -"; raw_unidad := py "Anestesia";
     raw_box := []; raw_lugar := []; raw_observ := [];
     raw_dias := [py "Lunes"]; raw_horas := [8%Z] |}.

(** Rows of two units and one row without unit. *)
Definition with_missing_unit : DataFrame :=
  {| columns := HEADERS;
     data := data two_units
             ++ [ <[9%nat := CNA]>
                    (frame_row (py "Eva") [] (py "Lunes") 8) ] |}.


(** * Properties *)

(** ** The text normalisers *)

Example to_title_juan :
  to_title (Some (py "juan de la cruz")) = py "Juan de la Cruz".
Proof. reflexivity. Qed.

Example to_title_spaces :
  to_title (Some (py "  MARIA   del  pilar ")) = py "Maria Del Pilar".
Proof. reflexivity. Qed.

Example norm_placa_ab : norm_placa (Some (py "ab-123.c")) = py "AB123C".
Proof. reflexivity. Qed.

Lemma elem_of_replace1_nil old s c :
  c ∈ replace1 old [] s ↔ c ∈ s ∧ c ≠ old.
Proof.
  unfold replace1. rewrite list_elem_of_bind. split.
  - intros (x & Hc & Hx). destruct (decide (x = old)) as [->|Hne].
    + by apply elem_of_nil in Hc.
    + apply list_elem_of_singleton in Hc as ->. done.
  - intros [Hc Hne]. exists c. split; [|done].
    rewrite decide_False by done. by apply list_elem_of_singleton.
Qed.

Lemma replace1_absent old new s : old ∉ s → replace1 old new s = s.
Proof.
  unfold replace1. induction s as [|c s IH]; [done|]. intros Hnot.
  apply not_elem_of_cons in Hnot as [Hne Hnot]. cbn.
  rewrite decide_False by done. cbn. f_equal. by apply IH.
Qed.

Lemma bind_fixed (f : N → list N) (s : pystr) :
  Forall (λ c, f c = [c]) s → s ≫= f = s.
Proof.
  induction 1 as [|c s Hc _ IH]; [done|]. cbn. rewrite Hc, IH. done.
Qed.

Section Plate.

Variable upper : N → list N.

(** The characters [str.upper] produces are their own upper case. *)
Hypothesis upper_fixed : ∀ c d, d ∈ upper c → upper d = [d].

Lemma norm_placa_elem s c :
  c ∈ _norm_placa upper s →
  c ≠ 45 ∧ c ≠ 32 ∧ c ≠ 46 ∧ upper c = [c].
Proof using upper_fixed.
  unfold _norm_placa. rewrite !elem_of_replace1_nil.
  intros [[[Hc H45] H32] H46]. repeat split; try done.
  unfold str_upper in Hc. apply list_elem_of_bind in Hc as (x & Hc & _).
  by eapply upper_fixed.
Qed.

Lemma norm_placa_again s :
  _norm_placa upper (Some (_norm_placa upper s)) = _norm_placa upper s.
Proof using upper_fixed.
  set (o := _norm_placa upper s).
  assert (Ho : ∀ c, c ∈ o → c ≠ 45 ∧ c ≠ 32 ∧ c ≠ 46 ∧ upper c = [c])
    by (intros c; apply norm_placa_elem).
  unfold _norm_placa at 1. cbn [or_empty].
  assert (Hup : str_upper upper o = o).
  { apply bind_fixed, Forall_forall. intros c Hc. by apply Ho. }
  rewrite Hup.
  rewrite (replace1_absent 45) by (intros H; by apply Ho in H as (? & _)).
  rewrite (replace1_absent 32) by (intros H; by apply Ho in H as (_ & ? & _)).
  rewrite (replace1_absent 46)
    by (intros H; by apply Ho in H as (_ & _ & ? & _)).
  done.
Qed.

End Plate.

(** C5. For every input [s] (a string or [None]), [_norm_placa] applied
    to its own output gives that output back; the output holds no hyphen
    (45), no space (32) and no period (46), and each of its characters
    is its own upper case; an empty input gives the empty string.  The
    only fact used of [str.upper] is that the characters it produces are
    unchanged by it. *)
Theorem norm_placa_idempotent_clean (upper : N → list N)
    (upper_fixed : ∀ c d, d ∈ upper c → upper d = [d])
    (s : option pystr) :
  _norm_placa upper (Some (_norm_placa upper s)) = _norm_placa upper s
  ∧ (∀ c, c ∈ _norm_placa upper s →
          c ≠ 45 ∧ c ≠ 32 ∧ c ≠ 46 ∧ upper c = [c])
  ∧ (or_empty s = [] → _norm_placa upper s = []).
Proof.
  split; [by apply norm_placa_again|]. split.
  - intros c. by apply norm_placa_elem.
  - intros Hs. unfold _norm_placa. by rewrite Hs.
Qed.

Ltac table_cases :=
  repeat match goal with
    | H : context [if ?b then _ else _] |- _ => destruct b eqn:?
    | |- context [if ?b then _ else _] => destruct b eqn:?
    end.

Ltac bool_facts :=
  repeat match goal with
    | H : _ && _ = true |- _ => apply andb_true_iff in H as [? ?]
    | H : _ && _ = false |- _ => apply andb_false_iff in H as [?|?]
    | H : _ || _ = true |- _ => apply orb_true_iff in H as [?|?]
    | H : _ || _ = false |- _ => apply orb_false_iff in H as [? ?]
    | H : negb _ = true |- _ => apply negb_true_iff in H
    | H : negb _ = false |- _ => apply negb_false_iff in H
    | H : (_ <=? _) = true |- _ => apply N.leb_le in H
    | H : (_ <=? _) = false |- _ => apply N.leb_gt in H
    | H : (_ =? _) = true |- _ => apply N.eqb_eq in H
    | H : (_ =? _) = false |- _ => apply N.eqb_neq in H
    end.

Lemma py_upper_fixed c d : d ∈ py_upper c → py_upper d = [d].
Proof.
  unfold py_upper at 1. unfold latin1_lower_letter.
  intros Hd.
  assert (Hcases : (65 ≤ d ∧ d ≤ 90) ∨ (192 ≤ d ∧ d ≤ 222 ∧ d ≠ 215)
                   ∨ d = 376 ∨ d = 924 ∨ py_upper d = [d]).
  { table_cases; bool_facts;
      repeat (apply elem_of_cons in Hd as [->|Hd]);
      try (by apply elem_of_nil in Hd);
      first [ lia
            | do 4 right; unfold py_upper, latin1_lower_letter;
              table_cases; bool_facts; first [done | lia] ]. }
  destruct Hcases as [H|[H|[->|[->|H]]]]; try done;
    unfold py_upper, latin1_lower_letter;
    table_cases; bool_facts; try done; lia.
Qed.

(** C5 at the plate of the specification's scenario. *)
Lemma norm_placa_idempotent_clean_witness :
  norm_placa (Some (norm_placa (Some (py "ab-123.c"))))
    = norm_placa (Some (py "ab-123.c"))
  ∧ (∀ c, c ∈ norm_placa (Some (py "ab-123.c")) →
          c ≠ 45 ∧ c ≠ 32 ∧ c ≠ 46 ∧ py_upper c = [c])
  ∧ (or_empty (Some (py "ab-123.c")) = [] →
     norm_placa (Some (py "ab-123.c")) = []).
Proof.
  exact (norm_placa_idempotent_clean py_upper py_upper_fixed
           (Some (py "ab-123.c"))).
Defined.

(** With the table [py_upper], the output has no letter [a]..[z]. *)
Lemma norm_placa_no_ascii_lower s c :
  c ∈ norm_placa s → ¬ (97 ≤ c ∧ c ≤ 122).
Proof.
  intros Hc [H1 H2].
  apply (norm_placa_elem py_upper py_upper_fixed) in Hc as (_ & _ & _ & Hc).
  unfold py_upper in Hc.
  assert ((97 <=? c) && (c <=? 122) = true) as Hb.
  { apply andb_true_iff. split; apply N.leb_le; lia. }
  rewrite Hb in Hc. injection Hc. lia.
Qed.

Lemma join_cons2 sep w w' rest :
  join sep (w :: w' :: rest) = w ++ sep ++ join sep (w' :: rest).
Proof. done. Qed.

Lemma reverse_cons_ne {A} (x : A) l : reverse (x :: l) ≠ [].
Proof.
  intros H. apply (f_equal length) in H. by rewrite length_reverse in H.
Qed.

Section Title.

Variables lower title : N → list N.
Variable isspace : N → bool.

Lemma lstrip_elem s c : c ∈ lstrip isspace s → c ∈ s.
Proof.
  induction s as [|x s IH]; [done|]. cbn.
  destruct (isspace x); [|done]. intros H. right. by apply IH.
Qed.

Lemma strip_elem s c : c ∈ strip isspace s → c ∈ s.
Proof.
  unfold strip, rstrip. intros H.
  rewrite elem_of_reverse in H. apply lstrip_elem in H.
  rewrite elem_of_reverse in H. by apply lstrip_elem in H.
Qed.

Lemma split_from_words cur s w :
  Forall (nonspace isspace) cur →
  w ∈ split_from isspace cur s →
  w ≠ [] ∧ Forall (λ c, (nonspace isspace) c ∧ (c ∈ cur ∨ c ∈ s)) w.
Proof.
  revert cur. induction s as [|x s IH]; intros cur Hcur; cbn.
  - destruct cur as [|y cur]; [by intros ?%elem_of_nil|].
    intros ->%list_elem_of_singleton. split.
    + by apply reverse_cons_ne.
    + apply Forall_forall. intros c Hc. rewrite elem_of_reverse in Hc. split.
      * by apply (proj1 (Forall_forall _ _) Hcur).
      * by left.
  - destruct (isspace x) eqn:Hx.
    + assert (Hrec : w ∈ split_from isspace [] s →
                     w ≠ [] ∧ Forall (λ c, (nonspace isspace) c
                                ∧ (c ∈ cur ∨ c ∈ x :: s)) w).
      { intros H. apply IH in H as [? H]; [|done]. split; [done|].
        eapply Forall_impl; [exact H|]. cbn. intros c [? [[]%elem_of_nil|?]].
        split; [done|]. right. by right. }
      destruct cur as [|y cur]; [done|].
      intros [->|H]%elem_of_cons; [|by apply Hrec]. split.
      * by apply reverse_cons_ne.
      * apply Forall_forall. intros c Hc. rewrite elem_of_reverse in Hc. split.
        -- by apply (proj1 (Forall_forall _ _) Hcur).
        -- by left.
    + intros H. apply IH in H as [? H]; [|by constructor]. split; [done|].
      eapply Forall_impl; [exact H|]. cbn.
      intros c [? [[->|?]%elem_of_cons|?]]; split; try done.
      * right. by left.
      * by left.
      * right. by right.
Qed.

Lemma split_from_word cur w rest :
  Forall (nonspace isspace) w →
  split_from isspace cur (w ++ rest)
  = split_from isspace (reverse w ++ cur) rest.
Proof.
  intros Hw. revert cur. induction Hw as [|c w Hc _ IH]; intros cur.
  - done.
  - cbn [app split_from]. unfold nonspace in Hc. rewrite Hc, IH.
    by rewrite reverse_cons, <- app_assoc.
Qed.

Lemma split_from_end cur w :
  Forall (nonspace isspace) w → w ≠ [] ∨ cur ≠ [] →
  split_from isspace cur w = [reverse cur ++ w].
Proof.
  intros Hw Hne.
  rewrite <- (app_nil_r w) at 1. rewrite split_from_word by done. cbn.
  destruct (reverse w ++ cur) eqn:E.
  - apply app_eq_nil in E as [E ->].
    apply (f_equal reverse) in E. rewrite reverse_involutive in E.
    subst w. by destruct Hne.
  - by rewrite <- E, reverse_app, reverse_involutive.
Qed.

Hypothesis space_is_space : isspace 32 = true.

Lemma split_join ws :
  Forall (λ w, w ≠ [] ∧ Forall (nonspace isspace) w) ws →
  split isspace (join (py " ") ws) = ws.
Proof using space_is_space.
  unfold split. induction 1 as [|w ws [Hne Hw] Hws IH]; [done|].
  destruct ws as [|w' ws].
  - cbn [join]. rewrite split_from_end by auto. done.
  - rewrite join_cons2, split_from_word by done.
    change (py " ") with [32]. cbn [app split_from].
    rewrite space_is_space, app_nil_r.
    destruct (reverse w) eqn:E.
    + apply (f_equal reverse) in E. rewrite reverse_involutive in E. done.
    + rewrite <- E, reverse_involutive. f_equal. apply IH.
Qed.

Lemma lstrip_head c s : (nonspace isspace) c → lstrip isspace (c :: s) = c :: s.
Proof. intros Hc. cbn. unfold nonspace in Hc. by rewrite Hc. Qed.

Lemma join_ends ws w :
  Forall (λ w, w ≠ [] ∧ Forall (nonspace isspace) w) (w :: ws) →
  (∃ c s, join (py " ") (w :: ws) = c :: s ∧ (nonspace isspace) c)
  ∧ (∃ s c, join (py " ") (w :: ws) = s ++ [c] ∧ (nonspace isspace) c).
Proof.
  intros H. split.
  - apply Forall_cons in H as [[Hne Hw] _].
    destruct w as [|c w]; [done|]. apply Forall_cons in Hw as [Hc _].
    destruct ws; cbn; eauto.
  - revert w H. induction ws as [|w' ws IH]; intros w H.
    + apply Forall_cons in H as [[Hne Hw] _]. cbn.
      destruct (decide (w = [])) as [|_]; [done|].
      assert (∃ s c, w = s ++ [c]) as (s & c & ->).
      { induction w as [|? ? _] using rev_ind; [done|eauto]. }
      apply Forall_app in Hw as [_ Hc]. apply Forall_cons in Hc as [Hc _].
      eauto.
    + apply Forall_cons in H as [_ H].
      destruct (IH _ H) as (s & c & E & Hc).
      exists (w ++ py " " ++ s), c. split; [|done].
      rewrite join_cons2.
      rewrite <- !app_assoc. do 2 f_equal. exact E.
Qed.

Lemma strip_join ws :
  Forall (λ w, w ≠ [] ∧ Forall (nonspace isspace) w) ws →
  strip isspace (join (py " ") ws) = join (py " ") ws.
Proof.
  intros H. destruct ws as [|w ws]; [done|].
  destruct (join_ends _ _ H) as [(c & s & E & Hc) (s' & c' & E' & Hc')].
  unfold strip, rstrip. rewrite E, lstrip_head by done. rewrite <- E, E'.
  rewrite reverse_snoc, lstrip_head by done.
  by rewrite <- reverse_snoc, reverse_involutive.
Qed.

(** Lower-casing a run of simply cased characters. *)
Lemma str_lower_simple r :
  Forall (simply_cased lower title isspace) r →
  ∃ r', str_lower lower r = r' ∧ length r' = length r
        ∧ Forall (λ c, lower c = [c] ∧ (nonspace isspace) c) r'.
Proof.
  induction 1 as [|c r (_ & l & t & Hl & _ & Hll & _ & Hsl & _) _ IH].
  - by exists [].
  - destruct IH as (r' & E & Hlen & Hr'). exists (l :: r').
    unfold str_lower in *. cbn. rewrite Hl, E. cbn.
    repeat split; [by rewrite Hlen|]. by constructor.
Qed.

Lemma str_lower_fixed r :
  Forall (λ c, lower c = [c] ∧ (nonspace isspace) c) r → str_lower lower r = r.
Proof.
  intros H. apply bind_fixed. eapply Forall_impl; [exact H|]. by intros ? [].
Qed.

Lemma title_word_settled w :
  w ≠ [] → Forall (simply_cased lower title isspace) w → (settled lower title isspace) (title_word lower title w).
Proof.
  intros Hne Hw. unfold settled, title_word.
  destruct (decide (2 < length w)%nat) as [Hlen|Hlen].
  - destruct w as [|c r]; [done|]. apply Forall_cons in Hw as [Hc Hr].
    destruct Hc as (_ & l & t & _ & Ht & _ & Htt & _ & Hst).
    destruct (str_lower_simple r Hr) as (r' & E & Hl & Hr').
    cbn [capitalize]. rewrite Ht, E. cbn [app].
    split; [done|]. split.
    + constructor; [done|]. eapply Forall_impl; [exact Hr'|]. by intros ? [].
    + rewrite decide_True by (cbn in *; lia).
      cbn [capitalize]. by rewrite Htt, (str_lower_fixed r').
  - destruct (str_lower_simple w Hw) as (w' & E & Hl & Hw'). rewrite E.
    split; [intros ->; by destruct w|]. split.
    + eapply Forall_impl; [exact Hw'|]. by intros ? [].
    + rewrite decide_False by lia. by apply str_lower_fixed.
Qed.

Lemma to_title_of_settled ws :
  Forall (settled lower title isspace) ws →
  _to_title lower title isspace (Some (join (py " ") ws)) = join (py " ") ws.
Proof using space_is_space.
  intros H. unfold _to_title. cbn [or_empty].
  assert (Forall (λ w, w ≠ [] ∧ Forall (nonspace isspace) w) ws) as Hws.
  { eapply Forall_impl; [exact H|]. by intros ? (? & ? & _). }
  rewrite strip_join, split_join by done. f_equal.
  clear Hws. induction H as [|w ws (_ & _ & Hw) _ IH]; [done|].
  cbn. by rewrite Hw, IH.
Qed.

Lemma to_title_again s :
  (∀ c, c ∈ or_empty s → isspace c = false → (simply_cased lower title isspace) c) →
  _to_title lower title isspace (Some (_to_title lower title isspace s))
  = _to_title lower title isspace s.
Proof using space_is_space.
  intros Hs. unfold _to_title at 2 3. cbn zeta.
  apply to_title_of_settled. apply Forall_fmap, Forall_forall.
  intros w Hw. cbn. apply (split_from_words [] _ w) in Hw as [Hne Hw];
    [|done].
  apply title_word_settled; [done|].
  eapply Forall_impl; [exact Hw|]. cbn.
  intros c [Hc [[]%elem_of_nil|Hin]]. apply Hs; [|done].
  by apply strip_elem in Hin.
Qed.

End Title.

(** C6, as stated, fails: the lower case of U+0130 is two code points,
    so the two-character word [İa] is lower-cased to a three-character
    word, which the second pass capitalises. *)
Lemma to_title_not_idempotent :
  to_title (Some (to_title (Some [304; 97]))) ≠ to_title (Some [304; 97]).
Proof. vm_compute. discriminate. Qed.

(** C6, amended. [_to_title] applied to its own output gives that output
    back for every input whose characters, white space apart, are simply
    cased: their lower and title cases are single characters, not white
    space, that a second conversion leaves unchanged.  The separator of
    the join is white space for [str.split]. *)
Theorem to_title_idempotent_simply_cased
    (lower title : N → list N) (isspace : N → bool)
    (space_is_space : isspace 32 = true)
    (s : option pystr)
    (Hs : ∀ c, c ∈ or_empty s → isspace c = false →
               simply_cased lower title isspace c) :
  _to_title lower title isspace (Some (_to_title lower title isspace s))
  = _to_title lower title isspace s.
Proof. by apply to_title_again. Qed.

Ltac not_space :=
  first
    [ reflexivity
    | unfold py_isspace;
      repeat (apply orb_false_iff; split);
      first [ apply N.eqb_neq; lia
            | apply andb_false_iff; rewrite !N.leb_gt; lia ] ].

Lemma latin1_lower_simple c :
  c < 256 → py_isspace c = false →
  ∃ l, py_lower c = [l] ∧ py_lower l = [l] ∧ py_isspace l = false.
Proof.
  intros Hc Hsp. unfold py_isspace in Hsp.
  unfold py_lower at 1. unfold latin1_upper_letter.
  table_cases; bool_facts; try lia; eexists;
    (split; [reflexivity|]);
    (split; [unfold py_lower, latin1_upper_letter;
             table_cases; bool_facts; first [done|lia]
            | not_space ]).
Qed.

Lemma latin1_title_simple c :
  c < 256 → c ≠ 223 → py_isspace c = false →
  ∃ t, py_title c = [t] ∧ py_title t = [t] ∧ py_isspace t = false.
Proof.
  intros Hc Hne Hsp. unfold py_isspace in Hsp.
  unfold py_title at 1. unfold py_upper at 1. unfold latin1_lower_letter.
  table_cases; bool_facts; try lia; eexists;
    (split; [reflexivity|]);
    (split; [unfold py_title, py_upper, latin1_lower_letter;
             table_cases; bool_facts; first [done|lia]
            | not_space ]).
Qed.

(** Basic Latin and the Latin-1 Supplement are simply cased, [ß] (223)
    apart. *)
Lemma latin1_simply_cased c :
  c < 256 → c ≠ 223 → py_isspace c = false →
  simply_cased py_lower py_title py_isspace c.
Proof.
  intros Hc Hne Hsp. split; [done|].
  destruct (latin1_lower_simple c Hc Hsp) as (l & ? & ? & ?).
  destruct (latin1_title_simple c Hc Hne Hsp) as (t & ? & ? & ?).
  exists l, t. done.
Qed.

(** On Basic Latin and Latin-1 text without [ß], and so on all ASCII
    text, [_to_title] is idempotent. *)
Corollary to_title_idempotent_latin1 (s : pystr) :
  Forall (λ c, c < 256 ∧ c ≠ 223) s →
  to_title (Some (to_title (Some s))) = to_title (Some s).
Proof.
  intros Hs. apply to_title_again; [done|].
  intros c Hc Hsp. cbn in Hc.
  apply (proj1 (Forall_forall _ _) Hs) in Hc as [? ?].
  by apply latin1_simply_cased.
Qed.

(** C6, amended, on a name in mixed case. *)
Lemma to_title_idempotent_witness :
  to_title (Some (to_title (Some (py "juan DE la cruz"))))
  = to_title (Some (py "juan DE la cruz")).
Proof.
  apply (to_title_idempotent_simply_cased py_lower py_title py_isspace
           eq_refl (Some (py "juan DE la cruz"))).
  intros c Hc Hsp. apply latin1_simply_cased; [| |done].
  - cbn in Hc. repeat (apply elem_of_cons in Hc as [->|Hc]); try done.
    by apply elem_of_nil in Hc.
  - cbn in Hc. repeat (apply elem_of_cons in Hc as [->|Hc]); try done.
    by apply elem_of_nil in Hc.
Defined.

(** ** The expansion of a submission *)

Lemma expand_rows_inner b d horas acc :
  foldl (λ rows h, rows ++ [slot_row b d h]) acc horas
  = acc ++ (slot_row b d <$> horas).
Proof.
  revert acc. induction horas as [|h horas IH]; intros acc; cbn.
  - by rewrite app_nil_r.
  - by rewrite IH, <- app_assoc.
Qed.

(** The rows come day by day in the order selected, and within a day
    hour by hour in the order selected. *)
Lemma expand_rows_order b dias horas :
  expand_rows b dias horas = d ← dias; slot_row b d <$> horas.
Proof.
  unfold expand_rows.
  enough (∀ acc,
    foldl (λ rows d, foldl (λ rows h, rows ++ [slot_row b d h]) rows horas)
          acc dias
    = acc ++ (d ← dias; slot_row b d <$> horas)) as H by apply (H []).
  induction dias as [|d dias IH]; intros acc; cbn.
  - by rewrite app_nil_r.
  - by rewrite IH, expand_rows_inner, <- app_assoc.
Qed.

Lemma expand_rows_length b dias horas :
  length (expand_rows b dias horas) = (length dias * length horas)%nat.
Proof.
  rewrite expand_rows_order. induction dias as [|d dias IH]; [done|].
  cbn. rewrite length_app, length_fmap, IH. done.
Qed.

(** Every row keeps the cells of [base] outside positions 13 and 14:
    time stamp, identifier, person, vehicle and place are shared. *)
Lemma expand_rows_shared b dias horas row i :
  row ∈ expand_rows b dias horas → i ≠ 13%nat → i ≠ 14%nat →
  row !! i = b !! i.
Proof.
  rewrite expand_rows_order. intros Hrow H13 H14.
  apply list_elem_of_bind in Hrow as (d & Hrow & _).
  apply list_elem_of_fmap in Hrow as (h & -> & _).
  unfold slot_row. by rewrite !list_lookup_insert_ne.
Qed.

(** Position 12, the column [dia_semana], is never written: a row holds
    the day under [hora] and the hour under [observacion]. *)
Lemma slot_row_fields ts rid f d h :
  slot (slot_row (base ts rid f) d h) = (Some (CStr []), Some (CStr d))
  ∧ field (py "observacion") (slot_row (base ts rid f) d h) = Some (CInt h).
Proof. done. Qed.

(** C1 on the scenario of the specification (two days, two hours): four
    rows come out, but in each the cell under [dia_semana] is the empty
    placeholder, the cell under [hora] is the day, and the hour has
    replaced the observation: no row holds its (day, hour) slot in the
    slot's columns. *)
Theorem expand_rows_slot_misplaced :
  let rows := expand_rows (base (py "2024-05-06T07:00:00") (py "rid")
                             scenario)
                (dias_sel scenario) (horas_sel scenario) in
  slot <$> rows
  = [ (Some (CStr []), Some (CStr (py "Lunes")));
      (Some (CStr []), Some (CStr (py "Lunes")));
      (Some (CStr []), Some (CStr (py "Martes")));
      (Some (CStr []), Some (CStr (py "Martes"))) ]
  ∧ field (py "observacion") <$> rows
    = [ Some (CInt 8); Some (CInt 9); Some (CInt 8); Some (CInt 9) ]
  ∧ (Some (CStr (py "Lunes")), Some (CInt 8)) ∉ slot <$> rows.
Proof.
  cbv zeta. split; [reflexivity|]. split; [reflexivity|].
  vm_compute. intros H.
  repeat (apply elem_of_cons in H as [H|H]; [discriminate H|]).
  by apply elem_of_nil in H.
Qed.

(** ** The header merge *)

Lemma filter_ext_elem {A} (P Q : A → Prop)
    `{∀ x, Decision (P x)} `{∀ x, Decision (Q x)} (l : list A) :
  (∀ x, x ∈ l → (P x ↔ Q x)) → filter P l = filter Q l.
Proof.
  induction l as [|a l IH]; intros HPQ; [done|].
  rewrite !filter_cons.
  assert (filter P l = filter Q l) as ->.
  { apply IH. intros x Hx. apply HPQ. by right. }
  pose proof (HPQ a (list_elem_of_here _ _)) as Haq.
  destruct (decide (P a)), (decide (Q a)); tauto.
Qed.

Section Distinct.

Context {K : Type} `{EqDecision K}.

Lemma distinct_seen_iff (seen seen' l : list K) :
  (∀ x, x ∈ seen ↔ x ∈ seen') → distinct seen l = distinct seen' l.
Proof.
  revert seen seen'. induction l as [|k l IH]; intros seen seen' Hs; [done|].
  cbn. destruct (decide (k ∈ seen)) as [Hk|Hk].
  - rewrite decide_True by by apply Hs. by apply IH.
  - rewrite decide_False by by rewrite <- Hs. f_equal. apply IH.
    intros x. rewrite !elem_of_cons, Hs. done.
Qed.

Lemma distinct_app (seen l1 l2 : list K) :
  distinct seen (l1 ++ l2)
  = distinct seen l1 ++ distinct (l1 ++ seen) l2.
Proof.
  revert seen. induction l1 as [|k l1 IH]; intros seen; [done|].
  cbn. destruct (decide (k ∈ seen)) as [Hk|Hk].
  - rewrite IH. f_equal. apply distinct_seen_iff. intros x.
    rewrite elem_of_cons, !elem_of_app. intuition (subst; try done; try tauto; eauto).
  - cbn. f_equal. rewrite IH. f_equal. apply distinct_seen_iff.
    intros x. rewrite elem_of_cons, !elem_of_app, elem_of_cons.
    intuition (subst; try done; try tauto; eauto).
Qed.

Lemma elem_of_distinct (seen l : list K) x :
  x ∈ distinct seen l ↔ x ∈ l ∧ x ∉ seen.
Proof.
  revert seen. induction l as [|k l IH]; intros seen; cbn.
  - rewrite elem_of_nil. intuition (subst; try done; try tauto; eauto).
  - destruct (decide (k ∈ seen)) as [Hk|Hk].
    + rewrite IH, elem_of_cons. intuition (subst; try done; try tauto; eauto).
    + rewrite !elem_of_cons, IH, not_elem_of_cons.
      destruct (decide (x = k)); intuition (subst; try done; try tauto; eauto).
Qed.

Lemma NoDup_distinct (seen l : list K) : NoDup (distinct seen l).
Proof.
  revert seen. induction l as [|k l IH]; intros seen; cbn.
  - constructor.
  - destruct (decide (k ∈ seen)); [done|].
    apply NoDup_cons. split; [|done].
    rewrite elem_of_distinct, not_elem_of_cons. intuition (subst; try done; try tauto; eauto).
Qed.

Lemma distinct_NoDup (seen l : list K) :
  NoDup l → distinct seen l = filter (λ x, x ∉ seen) l.
Proof.
  intros Hl. revert seen. induction Hl as [|k l Hk _ IH]; intros seen.
  - done.
  - cbn [distinct]. rewrite filter_cons.
    destruct (decide (k ∈ seen)) as [Hs|Hs].
    + rewrite decide_False by intuition (subst; try done; try tauto; eauto). done.
    + rewrite decide_True by done. f_equal. rewrite IH.
      apply filter_ext_elem. intros x Hx.
      rewrite not_elem_of_cons. intuition (subst; try done; try tauto; eauto).
Qed.

End Distinct.

Lemma fromkeys_from acc l : foldl dict_set_key acc l = acc ++ distinct acc l.
Proof.
  revert acc. induction l as [|k l IH]; intros acc; cbn.
  - by rewrite app_nil_r.
  - unfold dict_set_key at 2. destruct (decide (k ∈ acc)) as [Hk|Hk].
    + done.
    + rewrite IH, <- app_assoc. cbn. do 2 f_equal.
      apply distinct_seen_iff. intros x.
      rewrite elem_of_app, !elem_of_cons, elem_of_nil. tauto.
  Qed.

Lemma fromkeys_distinct l : fromkeys l = distinct [] l.
Proof. apply fromkeys_from. Qed.

(** The merged header: the labels of the current header, each at its
    first occurrence, then the labels of [headers] that the current
    header lacks. *)
Lemma merge_headers_parts current headers :
  merge_headers current headers
  = distinct [] current ++ distinct current headers.
Proof.
  unfold merge_headers. rewrite fromkeys_distinct, distinct_app.
  by rewrite app_nil_r.
Qed.


Lemma merge_headers_NoDup current headers :
  NoDup (merge_headers current headers).
Proof. unfold merge_headers. rewrite fromkeys_distinct. apply NoDup_distinct. Qed.


(** C2, as stated, fails on a header that repeats a label (two columns
    titled [nota], or two untitled columns): the merged header holds the
    label once, so the existing header is not a subsequence of it; one
    of its columns has lost its place. *)
Lemma merge_headers_drops_repeated :
  ¬ ([py "nota"; py "nota"]
       `sublist_of` merge_headers [py "nota"; py "nota"] HEADERS).
Proof.
  intros H. apply sublist_NoDup in H; [|apply merge_headers_NoDup].
  apply NoDup_cons in H as [H _]. apply H. by left.
Qed.

(** C2, amended. For every existing header without repeated label, and
    every canonical list without repeated label, the merged header is
    the existing header, unchanged and in its order, followed by the
    canonical labels the existing header lacks, in canonical order: no
    existing column is dropped or moved, and only missing canonical
    columns are added, at the end. *)
Theorem merge_headers_extends (current headers : list pystr) :
  NoDup current → NoDup headers →
  merge_headers current headers
  = current ++ filter (λ h, h ∉ current) headers.
Proof.
  intros Hc Hh. rewrite merge_headers_parts.
  rewrite (distinct_NoDup [] current Hc), (distinct_NoDup current headers Hh).
  f_equal. clear Hc. induction current as [|c current IH]; [done|].
  rewrite filter_cons_True by apply not_elem_of_nil. by f_equal.
Qed.

(** C2, amended, on a header with a column of its own before two
    canonical ones. *)
Lemma merge_headers_extends_witness :
  merge_headers [py "nota"; py "hora"; py "ci"] HEADERS
  = [py "nota"; py "hora"; py "ci"]
    ++ filter (λ h, h ∉ [py "nota"; py "hora"; py "ci"]) HEADERS.
Proof.
  apply (merge_headers_extends [py "nota"; py "hora"; py "ci"] HEADERS).
  - apply (bool_decide_unpack _). vm_compute. exact I.
  - apply (bool_decide_unpack _). vm_compute. exact I.
Defined.

Example merge_headers_nota :
  merge_headers [py "nota"; py "hora"; py "ci"] HEADERS
  = [ py "nota"; py "hora"; py "ci"; py "timestamp"; py "registro_id";
      py "nombre"; py "telefono"; py "email"; py "vehiculo_marca_modelo";
      py "color"; py "placa"; py "unidad"; py "box"; py "lugar";
      py "dia_semana"; py "observacion"; py "origen_app" ].
Proof. reflexivity. Qed.

(** ** Appending to the store *)

Lemma try_except_cases {A} (m : M A) (h : exn → M A) w :
  (∃ a w', m w = (Ok a, w') ∧ try_except m h w = (Ok a, w'))
  ∨ (∃ e w', m w = (Raise e, w') ∧ try_except m h w = h e w').
Proof.
  unfold try_except. destruct (m w) as [[a|e] w'] eqn:E; eauto.
Qed.

Lemma bind_ok_inv {A B} (m : M A) (k : A → M B) w b w' :
  bind m k w = (Ok b, w') →
  ∃ a w0, m w = (Ok a, w0) ∧ k a w0 = (Ok b, w').
Proof.
  unfold bind. destruct (m w) as [[a|e] w0] eqn:E; [eauto|discriminate].
Qed.

Lemma append_attempt_value rows w r w' :
  append_attempt rows w = (Ok r, w') → r = (true, py "OK").
Proof.
  unfold append_attempt. intros H.
  repeat (apply bind_ok_inv in H as (? & ? & _ & H)).
  by injection H as <- _.
Qed.

(** C4. For every list of rows and every world (whatever the
    credentials, and whichever requests to the store fail),
    [append_form_rows] returns a pair and does not raise: [(True, "OK")]
    when the attempt went through, and [(False, repr(e))] for the
    exception [e] that stopped it. *)
Theorem append_form_rows_returns (rows : list (list Cell)) (w : World) :
  (∃ w', append_attempt rows w = (Ok (true, py "OK"), w')
         ∧ append_form_rows rows w = (Ok (true, py "OK"), w'))
  ∨ (∃ e w', append_attempt rows w = (Raise e, w')
             ∧ append_form_rows rows w = (Ok (false, repr_exn e), w')).
Proof.
  unfold append_form_rows.
  destruct (try_except_cases (append_attempt rows)
              (λ e, ret (false, repr_exn e)) w)
    as [(r & w' & Hm & Ht)|(e & w' & Hm & Ht)].
  - left. exists w'. pose proof (append_attempt_value _ _ _ _ Hm) as ->. done.
  - right. exists e, w'. done.
Qed.

(** Missing credentials, a refused request and a quota error each come
    back as a message. *)
Example append_without_credentials rows tab0 :
  let w := {| credentials := CredMissing; faults := []; tab := tab0;
              csv := Raise (ValueError []); cache := None |} in
  append_form_rows rows w = (Ok (false, repr_exn no_credentials), w).
Proof. done. Qed.

Example append_quota_exceeded rows :
  let quota := APIError 429 (py "Quota exceeded") in
  let w := {| credentials := CredOk;
              faults := [None; None; None; Some quota];
              tab := Some [HEADERS];
              csv := Raise (ValueError []); cache := None |} in
  append_form_rows rows w
  = (Ok (false, py "APIError: [429]: Quota exceeded"), set_faults [] w).
Proof. done. Qed.

(** ** Reading the store *)

Lemma primary_or_fallback w :
  (∃ r w', primary w = (Ok r, w') ∧ fetch w = (Ok r, w'))
  ∨ (∃ e w' df, primary w = (Raise e, w') ∧ csv w' = Ok df
                ∧ fetch w = (Ok (inr df), w'))
  ∨ (∃ e e' w', primary w = (Raise e, w') ∧ csv w' = Raise e'
                ∧ fetch w = (Ok (inr (empty_frame HEADERS)), w')).
Proof.
  unfold fetch, try_except. destruct (primary w) as [[r|e] w'] eqn:E.
  - left. eauto.
  - right. unfold secondary, bind, read_csv.
    destruct (csv w') as [df|e'] eqn:Ecsv.
    + left. by exists e, w', df.
    + right. by exists e, e', w'.
Qed.

(** The two [try] never let an exception out. *)
Lemma fetch_returns w : ∃ r w', fetch w = (Ok r, w').
Proof.
  destruct (primary_or_fallback w)
    as [(r & w' & _ & H)|[(e & w' & df & _ & _ & H)|(e & e' & w' & _ & _ & H)]];
    eauto.
Qed.

Section ReadAll.

Variable to_numeric_str : pystr → Num.

Lemma normalise_empty_frame :
  normalise to_numeric_str (empty_frame HEADERS) = Ok (empty_frame HEADERS).
Proof. reflexivity. Qed.

(** Both sources failing, the canonical empty table comes back. *)
Lemma load_data_both_fail w e e' w' :
  primary w = (Raise e, w') → csv w' = Raise e' →
  load_data to_numeric_str w = (Ok (empty_frame HEADERS), w').
Proof.
  intros Hp Hc. unfold load_data, bind, fetch, try_except.
  rewrite Hp. unfold secondary, bind, read_csv. rewrite Hc. done.
Qed.

(** What [load_data] returns is the normalisation of what was
    fetched: an exception can only come from there. *)
Lemma load_data_normalises w :
  ∃ r w', fetch w = (Ok r, w')
          ∧ load_data to_numeric_str w
            = (match r with
               | inl df => Ok df
               | inr df => normalise to_numeric_str df
               end, w').
Proof.
  destruct (fetch_returns w) as (r & w' & H). exists r, w'.
  split; [done|]. unfold load_data, bind. rewrite H. by destruct r.
Qed.

End ReadAll.

(** C3 on a sheet that holds the hour [8.5]: the read of the primary
    store succeeds, and the cast of the column [hora] to [Int64], which
    is outside both [try], raises [TypeError]: [load_data] raises. *)
Theorem load_data_raises_on_fractional_hour :
  primary half_hour_world
  = (Ok (inr {| columns := HEADERS;
                data := [CStr <$> sheet_row (py "Ana") (py "Anestesia")
                                    (py "Lunes") (py "8.5")] |}),
     half_hour_world)
  ∧ load_data decimal half_hour_world
    = (Raise (TypeError
                (py "cannot safely cast non-equivalent object to int64")),
       half_hour_world).
Proof. split; reflexivity. Qed.

(** ** The effect of the store operations *)

Lemma kept_refl w : kept w w.
Proof. done. Qed.

Lemma kept_trans w1 w2 w3 : kept w1 w2 → kept w2 w3 → kept w1 w3.
Proof. unfold kept. intros (-> & -> & ->) (-> & -> & ->). done. Qed.

Lemma request_effect w r w' :
  request w = (r, w') → kept w w' ∧ tab w' = tab w.
Proof.
  unfold request. destruct (faults w) as [|[e|] fs]; intros [= <- <-]; done.
Qed.


Ltac after_request H :=
  let r := fresh "r" in
  let w0 := fresh "w" in
  let E := fresh "E" in
  let Hk := fresh "Hk" in
  let Ht := fresh "Ht" in
  unfold bind in H;
  match type of H with
  | context [request ?w] =>
      destruct (request w) as [r w0] eqn:E;
      apply request_effect in E as [Hk Ht];
      destruct r as [[]|?]; [|discriminate H]
  end.

Lemma open_or_create_effect w u w' :
  _open_or_create_sheet w = (Ok u, w') →
  kept w w' ∧ tab w' = Some (rows_of w).
Proof.
  unfold _open_or_create_sheet, open_by_key, try_except, worksheet,
    add_worksheet, rows_of.
  intros H. after_request H. unfold bind in H.
  destruct (request w0) as [r1 w1] eqn:E1.
  apply request_effect in E1 as [Hk1 Ht1].
  assert (Hadd :
    (let (r, w2) := request w1 in
     match r with
     | Ok _ => match tab w2 with
               | Some _ => (Raise (duplicate_title), w2)
               | None => (Ok (), set_tab (Some []) w2)
               end
     | Raise e => (Raise e, w2)
     end) = (Ok u, w') → kept w w' ∧ tab w' = Some (default [] (tab w))).
  { destruct (request w1) as [r2 w2] eqn:E2.
    apply request_effect in E2 as [Hk2 Ht2].
    destruct r2 as [[]|?]; [|discriminate].
    destruct (tab w2) eqn:Et; [discriminate|]. intros [= Hw]. clear H.
    subst w'. split.
    - eapply kept_trans; [exact Hk|]. eapply kept_trans; [exact Hk1|].
      eapply kept_trans; [exact Hk2|]. done.
    - cbn. rewrite <- Ht, <- Ht1, <- Ht2. done. }
  destruct r1 as [[]|e1]; [|by apply Hadd].
  destruct (tab w1) as [T|] eqn:Et; [|by apply Hadd].
  injection H as H. clear Hadd. subst w'. split.
  - by eapply kept_trans.
  - by rewrite Et, <- Ht, <- Ht1.
Qed.


Lemma merge_headers_nil : merge_headers [] HEADERS = HEADERS.
Proof. reflexivity. Qed.








(** ** Reading back what was appended *)




Lemma fill_gaps_cons hdr rest :
  let W := max_list (length <$> hdr :: rest) in
  fill_gaps (hdr :: rest) = pad_row W hdr :: (pad_row W <$> rest)
  ∧ (length hdr ≤ W)%nat ∧ Forall (λ r, (length r ≤ W)%nat) rest.
Proof.
  cbv zeta. split; [done|]. split.
  - apply max_list_elem_of_le. by left.
  - apply Forall_forall. intros r Hr. apply max_list_elem_of_le. right.
    by apply list_elem_of_fmap_2.
Qed.




Lemma keeps_bind {A B} (m : M A) (k : A → M B) :
  keeps m → (∀ a, keeps (k a)) → keeps (bind m k).
Proof.
  intros Hm Hk w r w'. unfold bind.
  destruct (m w) as [[a|e] w0] eqn:E; intros H.
  - eapply kept_trans; [by eapply Hm|by eapply Hk].
  - injection H as _ <-. by eapply Hm.
Qed.

Lemma keeps_try_except {A} (m : M A) (h : exn → M A) :
  keeps m → (∀ e, keeps (h e)) → keeps (try_except m h).
Proof.
  intros Hm Hh w r w'. unfold try_except.
  destruct (m w) as [[a|e] w0] eqn:E; intros H.
  - injection H as _ <-. by eapply Hm.
  - eapply kept_trans; [by eapply Hm|by eapply Hh].
Qed.

Lemma keeps_ret {A} (a : A) : keeps (ret a).
Proof. intros w r w' [= _ <-]. done. Qed.

Lemma keeps_request : keeps request.
Proof. intros w r w' H. by apply request_effect in H as [? _]. Qed.

Lemma keeps_set_tab {A} (f : World → result A) g :
  keeps (λ w, (f w, set_tab (g w) w)).
Proof. intros w r w' [= _ <-]. done. Qed.

Lemma keeps_pure {A} (f : World → result A) : keeps (λ w, (f w, w)).
Proof. intros w r w' [= _ <-]. done. Qed.

Lemma keeps_tab_check {A} (f g : World → result A * World) :
  keeps f → keeps g →
  keeps (λ w, match tab w with Some _ => f w | None => g w end).
Proof. intros Hf Hg w r w'. destruct (tab w); [apply Hf|apply Hg]. Qed.

Lemma keeps_client : keeps _get_gspread_client.
Proof.
  intros w r w'. unfold _get_gspread_client.
  destruct (credentials w); intros [= _ <-]; done.
Qed.

Lemma keeps_open_or_create : keeps _open_or_create_sheet.
Proof.
  apply keeps_bind; [apply keeps_request|]. intros _.
  apply keeps_try_except.
  - apply keeps_bind; [apply keeps_request|]. intros _ w r w'.
    destruct (tab w); intros [= _ <-]; done.
  - intros _. apply keeps_bind; [apply keeps_request|]. intros _ w r w'.
    destruct (tab w); intros [= _ <-]; done.
Qed.

Lemma keeps_ensure_headers headers : keeps (_ensure_headers headers).
Proof.
  apply keeps_bind.
  - apply keeps_bind; [apply keeps_request|]. intros _. apply keeps_pure.
  - intros [|cur vals].
    + apply keeps_bind; [apply keeps_request|]. intros _ w r w' [= _ <-]. done.
    + destruct (decide _); [apply keeps_ret|].
      apply keeps_bind.
      * apply keeps_bind; [apply keeps_request|].
        intros _ w r w' [= _ <-]. done.
      * intros _. apply keeps_bind; [apply keeps_request|]. intros _.
        apply keeps_bind; [intros w r w' [= _ <-]; done|]. intros _.
        apply keeps_bind; [apply keeps_request|].
        intros _ w r w' [= _ <-]. done.
Qed.

Lemma keeps_append_form_rows rows : keeps (append_form_rows rows).
Proof.
  apply keeps_try_except; [|intros e; apply keeps_ret].
  apply keeps_bind; [apply keeps_client|]. intros _.
  apply keeps_bind; [apply keeps_open_or_create|]. intros _.
  apply keeps_bind; [apply keeps_ensure_headers|]. intros _.
  apply keeps_bind; [|intros _; apply keeps_ret].
  apply keeps_bind; [apply keeps_request|]. intros _ w r w' [= _ <-]. done.
Qed.

(** A save that fails leaves the cache as it was. *)
Lemma submit_not_saved_keeps_cache ts rid f w msg w1 :
  submit ts rid f w = (Ok (NotSaved msg), w1) → cache w1 = cache w.
Proof.
  unfold submit. destruct (required_present f); [|discriminate].
  cbn [negb]. unfold bind.
  destruct (append_form_rows _ w) as [[[[] m]|e] w0] eqn:E; cbn;
    try discriminate.
  intros [= _ <-]. by apply keeps_append_form_rows in E as (_ & _ & ?).
Qed.



(** The scenario of the specification, end to end: four rows are saved,
    and the read that follows returns four rows (not the stale, empty
    cache entry). *)
Example scenario_saved_and_read :
  let r := submit (py "2024-05-06T07:00:00") (py "rid") scenario fresh_world in
  r.1 = Ok (Saved 4)
  ∧ cache fresh_world = Some (0%nat, empty_frame HEADERS)
  ∧ ∃ df w2, load_data_cached decimal 1 r.2 = (Ok df, w2)
             ∧ length (data df) = 4%nat
             ∧ cache w2 = Some (1%nat, df).
Proof.
  cbv zeta. split; [reflexivity|]. split; [reflexivity|].
  eexists _, _. split; [vm_compute; reflexivity|]. split; reflexivity.
Qed.

(** ** The dashboard's filters *)

Lemma isin_filter_columns col values q q' :
  isin_filter col values q = Ok q' → columns q' = columns q.
Proof.
  unfold isin_filter. destruct (index_of col (columns q)); [|discriminate].
  by intros [= <-].
Qed.

Lemma filter_dim_columns col values q q' :
  filter_dim col values q = Ok q' → columns q' = columns q.
Proof.
  unfold filter_dim. destruct (truthy values).
  - apply isin_filter_columns.
  - by intros [= <-].
Qed.

Lemma filter_dim_rows col values q q' row :
  filter_dim col values q = Ok q' →
  row ∈ data q' ↔ row ∈ data q ∧ passes col values (columns q) row.
Proof.
  unfold filter_dim, passes, isin_filter.
  destruct values as [|v values]; cbn [truthy].
  - intros [= <-]. intuition.
  - destruct (index_of col (columns q)) as [i|]; [|discriminate].
    intros [= <-]. cbn. rewrite list_elem_of_filter. split.
    + intros [? ?]. split; [done|]. right. by exists i.
    + intros [? [?|(j & [= <-] & ?)]]; [done|]. done.
Qed.

(** The rows that come out of the three filters: those that pass each
    of the three selections. *)
Lemma apply_filters_rows f_unidades f_dias f_horas df q row :
  apply_filters f_unidades f_dias f_horas df = Ok q →
  row ∈ data q ↔
    row ∈ data df
    ∧ passes (py "unidad") f_unidades (columns df) row
    ∧ passes (py "dia_semana") (CStr <$> f_dias) (columns df) row
    ∧ passes (py "hora") (CInt <$> f_horas) (columns df) row.
Proof.
  unfold apply_filters, result_bind. cbv zeta.
  destruct (filter_dim (py "unidad") f_unidades df) as [q1|] eqn:E1;
    [|discriminate].
  destruct (filter_dim (py "dia_semana") (CStr <$> f_dias) q1) as [q2|] eqn:E2;
    [|discriminate].
  intros E3.
  rewrite (filter_dim_rows _ _ _ _ row E3), (filter_dim_rows _ _ _ _ row E2),
    (filter_dim_rows _ _ _ _ row E1).
  rewrite (filter_dim_columns _ _ _ _ E2), (filter_dim_columns _ _ _ _ E1).
  tauto.
Qed.

(** C10. An empty selection on a dimension is skipped: the frame goes
    through that filter unchanged, whatever its columns; with the three
    selections empty the dashboard works on the whole frame; and with
    one selection empty, a row is kept exactly when it passes the two
    other selections, whatever its value on the empty one. *)
Theorem empty_selection_no_restriction (df : DataFrame)
    (f_unidades : list Cell) (f_dias : list pystr) (f_horas : list Z) :
  (∀ col, filter_dim col [] df = Ok df)
  ∧ apply_filters [] [] [] df = Ok df
  ∧ apply_filters [] f_dias f_horas df
    = result_bind (filter_dim (py "dia_semana") (CStr <$> f_dias) df)
        (filter_dim (py "hora") (CInt <$> f_horas))
  ∧ apply_filters f_unidades [] f_horas df
    = result_bind (filter_dim (py "unidad") f_unidades df)
        (filter_dim (py "hora") (CInt <$> f_horas))
  ∧ apply_filters f_unidades f_dias [] df
    = result_bind (filter_dim (py "unidad") f_unidades df)
        (filter_dim (py "dia_semana") (CStr <$> f_dias))
  ∧ (∀ q row,
       apply_filters [] f_dias f_horas df = Ok q →
       row ∈ data q ↔
         row ∈ data df
         ∧ passes (py "dia_semana") (CStr <$> f_dias) (columns df) row
         ∧ passes (py "hora") (CInt <$> f_horas) (columns df) row)
  ∧ (∀ q row,
       apply_filters f_unidades [] f_horas df = Ok q →
       row ∈ data q ↔
         row ∈ data df
         ∧ passes (py "unidad") f_unidades (columns df) row
         ∧ passes (py "hora") (CInt <$> f_horas) (columns df) row)
  ∧ (∀ q row,
       apply_filters f_unidades f_dias [] df = Ok q →
       row ∈ data q ↔
         row ∈ data df
         ∧ passes (py "unidad") f_unidades (columns df) row
         ∧ passes (py "dia_semana") (CStr <$> f_dias) (columns df) row).
Proof.
  split; [done|]. split; [done|]. split; [done|].
  split.
  { unfold apply_filters, result_bind.
    by destruct (filter_dim (py "unidad") f_unidades df). }
  split.
  { unfold apply_filters, result_bind.
    destruct (filter_dim (py "unidad") f_unidades df); [|done].
    by destruct (filter_dim _ _ _). }
  split; [|split]; intros q row H;
    rewrite (apply_filters_rows _ _ _ _ _ row H); unfold passes;
    cbn [fmap list_fmap]; intuition.
Qed.

(** What an [isin] with an empty list would have kept: nothing. *)
Example isin_empty_keeps_nothing :
  isin_filter (py "unidad") [] two_units = Ok (empty_frame HEADERS)
  ∧ apply_filters [] [] [] two_units = Ok two_units.
Proof. done. Qed.

Example filter_anestesia :
  ∃ q, apply_filters [CStr (py "Anestesia")] [] [] two_units = Ok q
       ∧ data q = [ frame_row (py "Ana") (py "Anestesia") (py "Lunes") 8;
                    frame_row (py "Ana") (py "Anestesia") (py "Martes") 9 ]
       ∧ groupby_count (py "unidad") q = Ok [(CStr (py "Anestesia"), 2%nat)].
Proof. eexists. split; [reflexivity|]. split; reflexivity. Qed.

(** ** The dashboard's panels *)


Lemma index_of_elem x l : x ∈ l → ∃ i, index_of x l = Some i.
Proof.
  induction l as [|y l IH]; [by intros ?%elem_of_nil|].
  intros Hx. cbn. destruct (decide (x = y)); [eauto|].
  apply elem_of_cons in Hx as [?|Hx]; [done|].
  destruct (IH Hx) as [i ->]. eauto.
Qed.







(** A filtered set can be empty while the loaded table is not: the
    panels then show zeros. *)
Example filtered_to_nothing :
  ∃ q, tablero [CStr (py "Cirugia")] [py "Martes"] [] two_units
       = Ok (Panels q)
       ∧ data q = [] ∧ registros (metrics q) = 0%nat.
Proof. eexists. split; [reflexivity|]. split; reflexivity. Qed.

(** A loaded table with rows but without the column [unidad] stops the
    tab at the first multiselect, before any filter runs. *)
Example tablero_needs_unidad :
  tablero [] [] []
    {| columns := [py "nombre"; py "dia_semana"; py "hora"];
       data := [[CStr (py "Ana"); CStr (py "Lunes"); CInt 8]] |}
  = Raise no_dropna.
Proof. reflexivity. Qed.

#[global] Instance count_ge_total : Total count_ge.
Proof. intros a b. unfold count_ge. lia. Qed.

#[global] Instance count_ge_trans : Transitive count_ge.
Proof. intros a b c. unfold count_ge. lia. Qed.


Lemma fmap_fst_pair {A B} (f : A → B) (l : list A) :
  ((λ v, (v, f v)) <$> l).*1 = l.
Proof. induction l as [|a l IH]; [done|]. cbn. by rewrite IH. Qed.







(** * Further properties of the program *)

(** ** The normalisers on blank and composite inputs *)

Lemma lstrip_blank (isspace : N → bool) s :
  Forall (λ c, isspace c = true) s → lstrip isspace s = [].
Proof. induction 1 as [|c s Hc _ IH]; [done|]. cbn. by rewrite Hc. Qed.

Lemma split_from_blank (isspace : N → bool) s :
  Forall (λ c, isspace c = true) s → split_from isspace [] s = [].
Proof. induction 1 as [|c s Hc _ IH]; [done|]. cbn. by rewrite Hc. Qed.

Lemma to_title_of_blank (lower title : N → list N) (isspace : N → bool)
    (s : option pystr) :
  Forall (λ c, isspace c = true) (or_empty s) →
  _to_title lower title isspace s = [].
Proof.
  intros Hs. unfold _to_title, strip, rstrip, split.
  by rewrite (lstrip_blank _ _ Hs).
Qed.

(** The name normaliser gives the empty string for [None], for the
    empty string and for a text made of white space only, with any
    case tables. *)
Theorem to_title_blank (lower title : N → list N) (isspace : N → bool)
    (s : option pystr) :
  Forall (λ c, isspace c = true) (or_empty s) →
  _to_title lower title isspace s = [].
Proof. apply to_title_of_blank. Qed.

Lemma to_title_blank_witness :
  to_title (Some [32; 9; 160; 32]) = [].
Proof.
  apply (to_title_blank py_lower py_title py_isspace (Some [32; 9; 160; 32])).
  repeat constructor.
Defined.

(** On text of simply cased characters, the output of the name
    normaliser has no white space at either end, its words are the
    transformed words of the input, one for one and in order, and it
    is these words joined by single spaces. *)
Theorem to_title_spacing (lower title : N → list N) (isspace : N → bool)
    (space_is_space : isspace 32 = true) (s : option pystr)
    (Hs : ∀ c, c ∈ or_empty s → isspace c = false →
               simply_cased lower title isspace c) :
  let out := _to_title lower title isspace s in
  let words := split isspace (strip isspace (or_empty s)) in
  strip isspace out = out
  ∧ split isspace out = title_word lower title <$> words
  ∧ out = join [32] (split isspace out)
  ∧ Forall (λ w, w ≠ [] ∧ Forall (λ c, isspace c = false) w)
           (split isspace out).
Proof.
  cbv zeta.
  set (ws := title_word lower title
               <$> split isspace (strip isspace (or_empty s))).
  assert (Hout : _to_title lower title isspace s = join (py " ") ws) by done.
  assert (Hws : Forall (λ w, w ≠ [] ∧ Forall (nonspace isspace) w) ws).
  { apply Forall_fmap, Forall_forall. intros w Hw. cbn.
    apply (split_from_words isspace [] _ w) in Hw as [Hne Hw]; [|done].
    destruct (title_word_settled lower title isspace w Hne) as (? & ? & _);
      [|done].
    eapply Forall_impl; [exact Hw|]. cbn.
    intros c [Hc [[]%elem_of_nil|Hin]]. apply Hs; [|done].
    by apply strip_elem in Hin. }
  rewrite Hout, strip_join, split_join by done.
  split; [done|]. split; [done|]. split; [done|]. exact Hws.
Qed.

Lemma to_title_spacing_witness :
  let s := Some (py "  maria   DEL  pilar ") in
  let out := to_title s in
  let words := split py_isspace (strip py_isspace (or_empty s)) in
  strip py_isspace out = out
  ∧ split py_isspace out = title_word py_lower py_title <$> words
  ∧ out = join [32] (split py_isspace out)
  ∧ Forall (λ w, w ≠ [] ∧ Forall (λ c, py_isspace c = false) w)
           (split py_isspace out).
Proof.
  apply (to_title_spacing py_lower py_title py_isspace eq_refl
           (Some (py "  maria   DEL  pilar "))).
  intros c Hc Hsp. apply latin1_simply_cased; [| |done];
    cbn in Hc; repeat (apply elem_of_cons in Hc as [->|Hc]); try done;
    by apply elem_of_nil in Hc.
Defined.

Lemma replace1_app old new a b :
  replace1 old new (a ++ b) = replace1 old new a ++ replace1 old new b.
Proof. apply bind_app. Qed.

Lemma norm_placa_pieces (upper : N → list N) (a b : pystr) :
  _norm_placa upper (Some (a ++ b))
  = _norm_placa upper (Some a) ++ _norm_placa upper (Some b).
Proof.
  unfold _norm_placa, str_upper. cbn [or_empty].
  by rewrite bind_app, !replace1_app.
Qed.

(** The plate normaliser works piece by piece: the normal form of a
    concatenation is the concatenation of the normal forms, with any
    upper-casing table. *)
Theorem norm_placa_app (upper : N → list N) (a b : pystr) :
  _norm_placa upper (Some (a ++ b))
  = _norm_placa upper (Some a) ++ _norm_placa upper (Some b).
Proof. apply norm_placa_pieces. Qed.

Lemma norm_placa_separator upper c :
  is_separator c → upper c = [c] → _norm_placa upper (Some [c]) = [].
Proof.
  intros Hc Hu. unfold _norm_placa, str_upper, replace1. cbn.
  rewrite Hu. cbn. destruct Hc as [-> | [-> | ->]]; done.
Qed.

Lemma norm_placa_separators_only upper
    (separators_fixed : ∀ c, is_separator c → upper c = [c]) (a : pystr) :
  Forall is_separator a → _norm_placa upper (Some a) = [].
Proof.
  induction 1 as [|c s Hc _ IH]; [done|].
  change (c :: s) with ([c] ++ s).
  rewrite norm_placa_pieces, IH, norm_placa_separator by auto. done.
Qed.

(** With an upper-casing table that leaves hyphen, space and period as
    they are and whose output is its own upper case, the plate
    normaliser does not see case or separators: upper-casing the input
    first, or putting a separator anywhere in it, changes nothing, and
    an input of separators only gives the empty string. *)
Theorem norm_placa_insensitive (upper : N → list N)
    (upper_fixed : ∀ c d, d ∈ upper c → upper d = [d])
    (separators_fixed : ∀ c, is_separator c → upper c = [c])
    (a b : pystr) (sep : N) :
  is_separator sep →
  _norm_placa upper (Some (str_upper upper a)) = _norm_placa upper (Some a)
  ∧ _norm_placa upper (Some (a ++ [sep] ++ b)) = _norm_placa upper (Some (a ++ b))
  ∧ (Forall is_separator a → _norm_placa upper (Some a) = []).
Proof.
  intros Hsep. split; [|split].
  - unfold _norm_placa. cbn [or_empty]. do 3 f_equal.
    unfold str_upper. apply bind_fixed, Forall_forall. intros d Hd.
    apply list_elem_of_bind in Hd as (c & Hd & _). by eapply upper_fixed.
  - rewrite !norm_placa_pieces, norm_placa_separator by auto. done.
  - by apply norm_placa_separators_only.
Qed.

Lemma py_upper_separators c : is_separator c → py_upper c = [c].
Proof. by intros [-> | [-> | ->]]. Qed.

Lemma norm_placa_insensitive_witness :
  norm_placa (Some (str_upper py_upper (py "ab 12")))
  = norm_placa (Some (py "ab 12"))
  ∧ norm_placa (Some (py "ab 12" ++ [45] ++ py "3c"))
    = norm_placa (Some (py "ab 12" ++ py "3c"))
  ∧ (Forall is_separator (py "ab 12") → norm_placa (Some (py "ab 12")) = []).
Proof.
  apply (norm_placa_insensitive py_upper py_upper_fixed py_upper_separators
           (py "ab 12") (py "3c") 45).
  by left.
Defined.

(** ** The rows of a submission *)

Lemma slot_row_day_hour ts rid f d h :
  slot_row (base ts rid f) d h !! 13%nat = Some (CStr d)
  ∧ slot_row (base ts rid f) d h !! 14%nat = Some (CInt h)
  ∧ length (slot_row (base ts rid f) d h) = 16%nat.
Proof. done. Qed.

(** The expansion of a submission holds one row for each selected day
    and hour and no other row, [D * H] rows in all; every row has the
    sixteen cells of the header, and outside positions 13 and 14 all
    rows are the base row. *)
Theorem expand_rows_product (ts rid : pystr) (f : Form) :
  let b := base ts rid f in
  let rows := expand_rows b (dias_sel f) (horas_sel f) in
  length rows = (length (dias_sel f) * length (horas_sel f))%nat
  ∧ (∀ row, row ∈ rows ↔
            ∃ d h, d ∈ dias_sel f ∧ h ∈ horas_sel f ∧ row = slot_row b d h)
  ∧ Forall (λ row, length row = length HEADERS) rows
  ∧ (∀ row i, row ∈ rows → i ≠ 13%nat → i ≠ 14%nat → row !! i = b !! i).
Proof.
  cbv zeta. split; [apply expand_rows_length|].
  assert (Hin : ∀ row,
    row ∈ expand_rows (base ts rid f) (dias_sel f) (horas_sel f) ↔
    ∃ d h, d ∈ dias_sel f ∧ h ∈ horas_sel f
           ∧ row = slot_row (base ts rid f) d h).
  { intros row. rewrite expand_rows_order, list_elem_of_bind. split.
    - intros (d & Hrow & Hd). apply list_elem_of_fmap in Hrow as (h & -> & Hh).
      by exists d, h.
    - intros (d & h & Hd & Hh & ->). exists d. split; [|done].
      by apply list_elem_of_fmap_2. }
  split; [exact Hin|]. split.
  - apply Forall_forall. intros row (d & h & _ & _ & ->)%Hin. done.
  - intros row i Hrow H13 H14. by apply (expand_rows_shared _ _ _ _ _ Hrow).
Qed.

(** When no day and no hour is selected twice, the rows of a
    submission are pairwise different: the day and the hour of a row
    can be read back from its positions 13 and 14. *)
Theorem expand_rows_NoDup (ts rid : pystr) (f : Form) :
  NoDup (dias_sel f) → NoDup (horas_sel f) →
  NoDup (expand_rows (base ts rid f) (dias_sel f) (horas_sel f)).
Proof.
  intros Hd Hh. rewrite expand_rows_order. apply NoDup_bind; [| |done].
  - intros d1 d2 row _ _ H1 H2.
    apply list_elem_of_fmap in H1 as (h1 & -> & _).
    apply list_elem_of_fmap in H2 as (h2 & E & _).
    apply (f_equal (λ r, r !! 13%nat)) in E.
    destruct (slot_row_day_hour ts rid f d1 h1) as (E1 & _).
    destruct (slot_row_day_hour ts rid f d2 h2) as (E2 & _).
    rewrite E1, E2 in E. by injection E.
  - intros d _. apply NoDup_fmap_2_strong; [|done].
    intros h1 h2 _ _ E. apply (f_equal (λ r, r !! 14%nat)) in E.
    destruct (slot_row_day_hour ts rid f d h1) as (_ & E1 & _).
    destruct (slot_row_day_hour ts rid f d h2) as (_ & E2 & _).
    rewrite E1, E2 in E. by injection E.
Qed.

Lemma expand_rows_NoDup_witness :
  NoDup (expand_rows (base (py "2024-05-06T07:00:00") (py "rid") scenario)
           (dias_sel scenario) (horas_sel scenario)).
Proof.
  apply (expand_rows_NoDup (py "2024-05-06T07:00:00") (py "rid") scenario).
  - apply (bool_decide_unpack _). vm_compute. exact I.
  - apply (bool_decide_unpack _). vm_compute. exact I.
Defined.

(** ** The worksheet and its header *)

(** When [_open_or_create_sheet] returns, the worksheet exists; its
    rows are those it had, none if it has just been created; and
    credentials, published CSV and cache are untouched. *)
Theorem open_or_create_keeps_rows (w : World) (u : unit) (w' : World) :
  _open_or_create_sheet w = (Ok u, w') →
  kept w w'
  ∧ tab w' = Some (rows_of w)
  ∧ (tab w = None → tab w' = Some []).
Proof.
  intros H. apply open_or_create_effect in H as [Hk Ht].
  split; [done|]. split; [done|]. intros Hn. rewrite Ht. unfold rows_of.
  by rewrite Hn.
Qed.

Lemma open_or_create_keeps_rows_witness :
  kept fresh_world fresh_world
  ∧ tab fresh_world = Some (rows_of fresh_world)
  ∧ (tab fresh_world = None → tab fresh_world = Some []).
Proof.
  apply (open_or_create_keeps_rows fresh_world () fresh_world). reflexivity.
Defined.

(** When the look-up of a worksheet that exists fails, the handler
    tries to create it: the error of the look-up is dropped, and what
    comes out is the refusal of the creation. *)
Theorem open_or_create_masks_lookup_error (w : World) (e : exn)
    (fs : list (option exn)) (rows : list (list pystr)) :
  tab w = Some rows →
  faults w = None :: Some e :: None :: fs →
  _open_or_create_sheet w
  = (Raise (duplicate_title), set_faults fs w).
Proof.
  destruct w as [c f t v k]. cbn. intros -> ->. reflexivity.
Qed.

Lemma open_or_create_masks_lookup_error_witness :
  _open_or_create_sheet
    (set_faults [None; Some (APIError 429 (py "Quota exceeded")); None]
       fresh_world)
  = (Raise (duplicate_title),
     set_faults []
       (set_faults [None; Some (APIError 429 (py "Quota exceeded")); None]
          fresh_world)).
Proof.
  apply (open_or_create_masks_lookup_error
           (set_faults [None; Some (APIError 429 (py "Quota exceeded")); None]
              fresh_world)
           (APIError 429 (py "Quota exceeded")) [] [HEADERS]);
    reflexivity.
Defined.





(** The rewrite of a header is three requests (the deletion of the
    first row, the insertion of an empty row, the writing of the merged
    labels) and not atomic.  When the row has been deleted and the
    insertion fails, [append_form_rows] reports the failure, appends
    nothing, and the sheet is left without its header: with its first
    data row in first place when the first request of the insertion
    fails, with an empty first row ([blank]) when the second one
    fails. *)
Theorem append_can_lose_header (rows : list (list Cell)) (w : World)
    (t : list pystr) (rest : list (list pystr)) (e : exn)
    (fs : list (option exn)) (blank : bool) :
  credentials w = CredOk →
  tab w = Some (t :: rest) →
  pad_row (max_list (length <$> t :: rest)) t ≠ HEADERS →
  faults w = [None; None; None; None]
             ++ (if blank then [None] else []) ++ Some e :: fs →
  append_form_rows rows w
  = (Ok (false, repr_exn e),
     set_tab (Some ((if blank then [[]] else []) ++ rest)) (set_faults fs w)).
Proof.
  destruct w as [c f tb v k]. cbn [credentials tab faults].
  intros -> -> Hne ->.
  unfold append_form_rows, try_except, append_attempt, bind,
    _get_gspread_client, _open_or_create_sheet, open_by_key, worksheet,
    try_except, bind, request. cbn [credentials faults tab set_faults app].
  unfold _ensure_headers, get_all_values, bind, request.
  cbn [credentials faults tab set_faults rows_of default]. unfold id.
  destruct (fill_gaps_cons t rest) as (-> & _ & _).
  rewrite decide_False by done.
  unfold delete_rows_1, insert_row_1, bind, request.
  cbn [credentials faults tab set_faults set_tab rows_of default tail].
  destruct blank; reflexivity.
Qed.

Lemma append_can_lose_header_witness :
  let w := λ fs, {| credentials := CredOk; faults := fs;
                    tab := Some [[py "nota"]; [py "dato"]];
                    csv := Raise (ValueError []); cache := None |} in
  let quota := APIError 429 (py "Quota exceeded") in
  append_form_rows [] (w [None; None; None; None; Some quota])
  = (Ok (false, py "APIError: [429]: Quota exceeded"),
     set_tab (Some [[py "dato"]]) (w []))
  ∧ append_form_rows [] (w [None; None; None; None; None; Some quota])
    = (Ok (false, py "APIError: [429]: Quota exceeded"),
       set_tab (Some [[]; [py "dato"]]) (w [])).
Proof.
  assert (Hne : pad_row (max_list (length <$> [[py "nota"]; [py "dato"]]))
                  [py "nota"] ≠ HEADERS) by (vm_compute; discriminate).
  split.
  - exact (append_can_lose_header []
             {| credentials := CredOk;
                faults := [None; None; None; None;
                           Some (APIError 429 (py "Quota exceeded"))];
                tab := Some [[py "nota"]; [py "dato"]];
                csv := Raise (ValueError []); cache := None |}
             [py "nota"] [[py "dato"]]
             (APIError 429 (py "Quota exceeded")) [] false
             eq_refl eq_refl Hne eq_refl).
  - exact (append_can_lose_header []
             {| credentials := CredOk;
                faults := [None; None; None; None; None;
                           Some (APIError 429 (py "Quota exceeded"))];
                tab := Some [[py "nota"]; [py "dato"]];
                csv := Raise (ValueError []); cache := None |}
             [py "nota"] [[py "dato"]]
             (APIError 429 (py "Quota exceeded")) [] true
             eq_refl eq_refl Hne eq_refl).
Defined.

(** ** What [append_form_rows] does to the world *)




(** [append_form_rows] never touches the credentials, the published
    CSV or the cache of [load_data], whether it succeeds or fails: the
    cache is for its caller to clear.  Without valid credentials it
    makes no request and leaves the sheet as it is. *)
Theorem append_form_rows_frame (rows : list (list Cell)) (w : World) :
  kept w (append_form_rows rows w).2
  ∧ (credentials w = CredMissing →
     append_form_rows rows w = (Ok (false, repr_exn no_credentials), w))
  ∧ (∀ e, credentials w = CredInvalid e →
          append_form_rows rows w = (Ok (false, repr_exn e), w)).
Proof.
  split.
  - destruct (append_form_rows rows w) as [r w'] eqn:E.
    by apply keeps_append_form_rows in E.
  - unfold append_form_rows, try_except, append_attempt, bind,
      _get_gspread_client.
    split; [intros ->|intros e ->]; done.
Qed.

(** ** The normalisations of [load_data] *)

Lemma index_of_lookup x l i : index_of x l = Some i → l !! i = Some x.
Proof.
  revert i. induction l as [|y l IH]; intros i; [done|]. cbn.
  destruct (decide (x = y)) as [->|Hne].
  - by intros [= <-].
  - destruct (index_of x l) as [j|]; [|done]. intros [= <-]. cbn. by apply IH.
Qed.

Lemma nanmax_step_None best vals :
  foldl nanmax_step best vals = None →
  best = None ∧ Forall (λ n, n = NotANumber) vals.
Proof.
  revert best. induction vals as [|n vals IH]; intros best; [done|]. cbn.
  intros H. apply IH in H as [H1 H2].
  destruct n; destruct best as [b|]; cbn in H1; try done;
    try (by destruct (float_lt b _)).
  all: split; [done|]; by constructor.
Qed.

Lemma nanmax_step_Some best vals m :
  foldl nanmax_step best vals = Some m → best = Some m ∨ m ∈ vals.
Proof.
  revert best. induction vals as [|n vals IH]; intros best; [by left|]. cbn.
  intros H. apply IH in H as [H|H]; [|right; by right].
  destruct n; destruct best as [b|]; cbn in H;
    try (destruct (float_lt b _)); try injection H as <-;
    try (by left); try (right; by left); done.
Qed.

Lemma nanmax_None vals :
  nanmax vals = None → Forall (λ n, n = NotANumber) vals.
Proof. intros H. by apply nanmax_step_None in H as [_ ?]. Qed.

Lemma nanmax_Some vals m : nanmax vals = Some m → m ∈ vals.
Proof. intros H. by apply nanmax_step_Some in H as [?|?]. Qed.

Lemma forallb_castable_missing vals :
  Forall (λ n, n = NotANumber) vals → forallb castable vals = true.
Proof. induction 1 as [|n vals -> _ IH]; [done|]. by cbn. Qed.

Lemma not_all_castable vals :
  forallb castable vals = false → ∃ n, n ∈ vals ∧ castable n = false.
Proof.
  induction vals as [|n vals IH]; [done|]. cbn.
  destruct (castable n) eqn:E.
  - intros H. destruct (IH H) as (m & ? & ?). exists m. split; [by right|done].
  - intros _. exists n. split; [by left|done].
Qed.

(** When the cast goes through, the column was one of int64, or one of
    floats that [Int64] holds. *)
Lemma astype_Int64_inv d vals cells :
  astype_Int64 (d, vals) = Ok cells →
  cells = int64_cell <$> vals
  ∧ (d = int64 ∨ (d = float64 ∧ forallb castable vals = true)).
Proof.
  unfold astype_Int64. cbn [fst snd]. destruct d; try done.
  - intros [= <-]. split; [done|by left].
  - destruct (nanmax vals) as [m|] eqn:Em.
    + assert (Hc : (if forallb castable vals then Ok (int64_cell <$> vals)
                    else Raise (cannot_safely_cast "float64")) = Ok cells →
                   cells = int64_cell <$> vals
                   ∧ (float64 = int64
                      ∨ float64 = float64 ∧ forallb castable vals = true)).
      { destruct (forallb castable vals); [|done]. intros [= <-].
        split; [done|]. by right. }
      destruct m; try done. by destruct (head _).
    + intros [= <-]. split; [done|]. right. split; [done|].
      by apply forallb_castable_missing, nanmax_None.
Qed.

(** When the cast is refused, the column is not one of int64, and if it
    is one of floats it holds a value that [Int64] does not. *)
Lemma astype_Int64_raises d vals e :
  astype_Int64 (d, vals) = Raise e →
  d ≠ int64 ∧ (d = float64 → ∃ n, n ∈ vals ∧ castable n = false).
Proof.
  unfold astype_Int64. cbn [fst snd]. destruct d; try done.
  intros H. split; [done|]. intros _.
  destruct (nanmax vals) as [m|] eqn:Em; [|done].
  apply nanmax_Some in Em.
  destruct m; try (by exists (Fractional floor));
    try (by exists (Infinite positive));
    destruct (forallb castable vals) eqn:E; try done;
    by apply not_all_castable.
Qed.

Lemma existsb_elem {A} (f : A → bool) l :
  existsb f l = true → ∃ x, x ∈ l ∧ f x = true.
Proof.
  intros (x & Hx & Hf)%existsb_exists. exists x. split; [|done].
  by apply list_elem_of_In.
Qed.

(** A column that is neither of int64 nor of floats holds an integer
    above the range of int64. *)
Lemma dtype_of_unsigned nums :
  dtype_of nums = uint64 ∨ dtype_of nums = object →
  ∃ n, n ∈ nums ∧ seen_uint n = true.
Proof.
  unfold dtype_of. destruct (existsb seen_uint nums) eqn:E.
  - intros _. by apply existsb_elem.
  - cbn. destruct (existsb seen_float nums); intros [?|?]; done.
Qed.

Lemma seen_uint_unfit n : seen_uint n = true → fits_int64 n = false.
Proof.
  destruct n as [z| | | |]; try done. unfold seen_uint, fits_int64, castable,
    in_int64. intros [H _]%andb_prop. apply Z.ltb_lt in H.
  apply andb_false_intro1, andb_false_intro2, Z.leb_gt. done.
Qed.

Lemma as_float64_small z :
  (Z.abs z < 2 ^ 53)%Z → float64_of_Z z = z.
Proof.
  intros H. unfold float64_of_Z. cbv zeta.
  by rewrite (proj2 (Z.ltb_lt _ _) H).
Qed.

(** Missing values and whole numbers below [2^53] in magnitude are held
    by [Int64] in every column. *)
Lemma small_fits_int64 z :
  (Z.abs z < 2 ^ 53)%Z →
  fits_int64 (Whole z) = true ∧ fits_int64 (FloatWhole z) = true.
Proof.
  intros H. unfold fits_int64, as_float64, castable.
  rewrite (as_float64_small z H). rewrite andb_diag.
  assert (in_int64 z = true); [|done].
  unfold in_int64, int64_min, int64_max.
  apply andb_true_intro. split; [apply Z.leb_le|apply Z.leb_le]; lia.
Qed.

Lemma set_column_row i (f : Cell → Cell) df n row :
  data df !! n = Some row →
  data (set_column i (f <$> get_column i df) df) !! n
  = Some (<[i := f (cell i row)]> row).
Proof.
  intros Hrow. unfold set_column, get_column. cbn.
  apply lookup_zip_with_Some. exists row, (f (cell i row)).
  split; [done|]. split; [done|].
  rewrite <- list_fmap_compose, list_lookup_fmap, Hrow. done.
Qed.

Lemma cell_insert i k v row :
  cell k (<[i := v]> row)
  = if decide (i = k ∧ (i < length row)%nat) then v else cell k row.
Proof.
  unfold cell. destruct (decide (i = k)) as [->|Hne].
  - destruct (decide (k < length row)%nat) as [Hlt|Hge].
    + rewrite decide_True by done. by rewrite list_lookup_insert_eq.
    + rewrite decide_False by tauto. rewrite list_insert_ge by lia. done.
  - rewrite decide_False by tauto. by rewrite list_lookup_insert_ne.
Qed.

Lemma length_set_column i (f : Cell → Cell) df :
  length (data (set_column i (f <$> get_column i df) df)) = length (data df).
Proof.
  unfold set_column, get_column. cbn.
  rewrite length_zip_with_l_eq; [done|]. by rewrite !length_fmap.
Qed.

Section Normalise.

Variable to_numeric_str : pystr → Num.

Lemma normalise_hora_inv df df1 :
  normalise_hora to_numeric_str df = Ok df1 →
  (index_of (py "hora") (columns df) = None ∧ df1 = df)
  ∨ ∃ i, index_of (py "hora") (columns df) = Some i
         ∧ df1 = set_column i
                   ((λ c, int64_cell
                            (column_value (hora_dtype to_numeric_str df)
                               (to_numeric to_numeric_str c)))
                      <$> get_column i df) df.
Proof.
  unfold normalise_hora, hora_dtype.
  destruct (index_of (py "hora") (columns df)) as [i|]; [|intros [= <-]; by left].
  destruct (decide _); [done|]. unfold result_bind, to_numeric_column.
  destruct (astype_Int64 _) as [vals|] eqn:E; [|done].
  intros [= <-]. right. exists i. split; [done|].
  apply astype_Int64_inv in E as [-> _]. by rewrite <- !list_fmap_compose.
Qed.

Lemma normalise_dia_inv df df2 :
  normalise_dia df = Ok df2 →
  (index_of (py "dia_semana") (columns df) = None ∧ df2 = df)
  ∨ ∃ j, index_of (py "dia_semana") (columns df) = Some j
         ∧ df2 = set_column j (categorical <$> get_column j df) df.
Proof.
  unfold normalise_dia.
  destruct (index_of (py "dia_semana") (columns df)) as [j|];
    [|intros [= <-]; by left].
  destruct (decide _); [done|]. intros [= <-]. right. by exists j.
Qed.

Lemma normalise_rows df df' :
  normalise to_numeric_str df = Ok df' →
  columns df' = columns df
  ∧ length (data df') = length (data df)
  ∧ ∀ n row, data df !! n = Some row →
      ∃ row', data df' !! n = Some row'
              ∧ length row' = length row
              ∧ ∀ k, cell k row' = normalised_cell to_numeric_str df k (cell k row).
Proof.
  unfold normalise, result_bind.
  destruct (normalise_hora to_numeric_str df) as [df1|] eqn:E1; [|done].
  intros E2.
  assert (H1 : columns df1 = columns df
    ∧ length (data df1) = length (data df)
    ∧ ∀ n row, data df !! n = Some row →
        ∃ row1, data df1 !! n = Some row1 ∧ length row1 = length row
          ∧ ∀ k, cell k row1
                 = if decide (index_of (py "hora") (columns df) = Some k)
                   then int64_cell
                          (column_value (hora_dtype to_numeric_str df)
                             (to_numeric to_numeric_str (cell k row)))
                   else cell k row).
  { apply normalise_hora_inv in E1 as [[Hn ->]|(i & Hi & ->)].
    - split; [done|]. split; [done|]. intros n row Hrow. exists row.
      split; [done|]. split; [done|]. intros k. rewrite Hn.
      by rewrite decide_False.
    - split; [done|]. split; [apply length_set_column|].
      intros n row Hrow. eexists.
      split; [by apply (set_column_row i (λ c, int64_cell _))|].
      split; [by rewrite length_insert|]. intros k. rewrite cell_insert, Hi.
      destruct (decide (i = k)) as [->|Hne].
      + rewrite (decide_True (P := Some k = Some k)) by done.
        destruct (decide (k < length row)%nat) as [Hlt|Hge].
        * by rewrite decide_True.
        * rewrite decide_False by tauto. unfold cell.
          rewrite lookup_ge_None_2 by lia. cbn.
          by destruct (hora_dtype to_numeric_str df).
      + rewrite decide_False by tauto.
        rewrite decide_False by (intros [=]; done). done. }
  destruct H1 as (Hc1 & Hl1 & Hr1).
  assert (Hij : ∀ k, index_of (py "hora") (columns df) = Some k →
                     index_of (py "dia_semana") (columns df) = Some k → False).
  { intros k Ha%index_of_lookup Hb%index_of_lookup. rewrite Ha in Hb.
    revert Hb. vm_compute. discriminate. }
  apply normalise_dia_inv in E2 as [[Hn ->]|(j & Hj & ->)].
  - split; [done|]. split; [done|]. intros n row Hrow.
    destruct (Hr1 n row Hrow) as (row1 & ? & ? & Hk). exists row1.
    split; [done|]. split; [done|]. intros k. rewrite Hk.
    unfold normalised_cell. destruct (decide _); [done|].
    rewrite <- Hc1, Hn. by rewrite decide_False.
  - split; [done|]. split; [by rewrite length_set_column|].
    intros n row Hrow. destruct (Hr1 n row Hrow) as (row1 & Hn1 & Hlen & Hk).
    eexists. split; [by apply set_column_row|].
    split; [by rewrite length_insert|]. intros k.
    rewrite cell_insert. unfold normalised_cell. rewrite Hc1 in Hj.
    destruct (decide (index_of (py "hora") (columns df) = Some k)) as [Hh|Hh].
    + assert (j ≠ k) by (intros ->; by eapply Hij).
      case_decide; [tauto|]. rewrite Hk. by case_decide.
    + destruct (decide (index_of (py "dia_semana") (columns df) = Some k))
        as [Hd|Hd].
      * assert (j = k) by congruence. subst j. rewrite !Hk.
        destruct (decide (index_of (py "hora") (columns df) = Some k));
          [done|].
        destruct (decide (k = k ∧ (k < length row1)%nat)) as [|Hge]; [done|].
        unfold cell. rewrite !lookup_ge_None_2 by lia. done.
      * assert (j ≠ k) by congruence.
        case_decide; [tauto|]. rewrite Hk. by case_decide.
Qed.

(** The normalisations raise for a label that occurs twice, or for an
    hour that [Int64] does not hold. *)
Lemma normalise_raises df e :
  normalise to_numeric_str df = Raise e →
  (1 < count_label (py "hora") (columns df))%nat
  ∨ (1 < count_label (py "dia_semana") (columns df))%nat
  ∨ ∃ row i, row ∈ data df
             ∧ index_of (py "hora") (columns df) = Some i
             ∧ fits_int64 (to_numeric to_numeric_str (cell i row)) = false.
Proof.
  unfold normalise, result_bind.
  destruct (normalise_hora to_numeric_str df) as [df1|e1] eqn:E1.
  - intros E2. right. left.
    assert (columns df1 = columns df) as <-.
    { apply normalise_hora_inv in E1 as [[_ ->]|(i & _ & ->)]; done. }
    unfold normalise_dia in E2.
    destruct (index_of (py "dia_semana") (columns df1)); [|done].
    by destruct (decide _).
  - intros _. unfold normalise_hora in E1.
    destruct (index_of (py "hora") (columns df)) as [i|] eqn:Ei; [|done].
    destruct (decide _) as [|Hnd]; [by left|]. right. right.
    unfold result_bind, to_numeric_column in E1.
    destruct (astype_Int64 _) as [|e2] eqn:Ea; [done|].
    apply astype_Int64_raises in Ea as [Hd Hf].
    assert (∃ n, n ∈ to_numeric to_numeric_str <$> get_column i df
                 ∧ fits_int64 n = false) as (n & Hn & Hfit).
    { destruct (dtype_of _) eqn:Ed; [done| | |].
      - destruct (dtype_of_unsigned _ (or_introl Ed)) as (n & ? & ?).
        exists n. split; [done|]. by apply seen_uint_unfit.
      - destruct (Hf eq_refl) as (n & Hn & Hc).
        apply list_elem_of_fmap in Hn as (n0 & -> & Hn0). exists n0.
        split; [done|]. unfold fits_int64. cbn [column_value] in Hc.
        rewrite Hc. apply andb_false_r.
      - destruct (dtype_of_unsigned _ (or_intror Ed)) as (n & ? & ?).
        exists n. split; [done|]. by apply seen_uint_unfit. }
    apply list_elem_of_fmap in Hn as (c & -> & Hin).
    apply list_elem_of_fmap in Hin as (row & -> & Hrow).
    by exists row, i.
Qed.

(** A fractional or an infinite hour stops the normalisations, whatever
    the other hours. *)
Lemma normalise_hora_refuses df i row :
  index_of (py "hora") (columns df) = Some i → row ∈ data df →
  castable (as_float64 (to_numeric to_numeric_str (cell i row))) = false →
  seen_float (to_numeric to_numeric_str (cell i row)) = true →
  ∃ e, normalise to_numeric_str df = Raise e.
Proof.
  intros Hi Hrow Hbad Hfl. unfold normalise, normalise_hora. rewrite Hi.
  destruct (decide _) as [|Hnd]; [by eexists|]. unfold to_numeric_column.
  set (nums := to_numeric to_numeric_str <$> get_column i df).
  assert (Hin : to_numeric to_numeric_str (cell i row) ∈ nums).
  { apply list_elem_of_fmap. eexists. split; [done|].
    apply list_elem_of_fmap. by exists row. }
  destruct (astype_Int64 (dtype_of nums, column_value (dtype_of nums) <$> nums))
    as [cells|e] eqn:Ea; [|by exists e].
  exfalso. apply astype_Int64_inv in Ea as [_ [Hd|[Hd Hall]]].
  - unfold dtype_of in Hd.
    assert (existsb seen_float nums = true) as Hex.
    { apply existsb_exists. eexists. split; [|exact Hfl].
      by apply list_elem_of_In. }
    rewrite Hex in Hd. by destruct (_ && _).
  - rewrite Hd in Hall. cbn [column_value] in Hall.
    assert (castable (as_float64 (to_numeric to_numeric_str (cell i row)))
            = true); [|congruence].
    refine (proj1 (forallb_forall _ _) Hall _ _).
    apply list_elem_of_In, list_elem_of_fmap. by eexists.
Qed.

End Normalise.

(** When the normalisations go through, the frame keeps its labels and
    its number of rows, every row keeps its length, and each cell is
    what its position says.  Under [hora]: missing when [to_numeric]
    reads no number in the cell, and the whole number read when its
    magnitude is below [2^53]; a larger one comes back as it is or as
    the nearest float64, which depends on the other cells of the column
    (the column is one of floats as soon as one cell is not an
    integer).  Under [dia_semana]: the day when it is one of [DIAS_ORD],
    missing otherwise.  Elsewhere: the cell as fetched. *)
Theorem normalise_cell_by_cell (to_numeric_str : pystr → Num)
    (df df' : DataFrame) :
  normalise to_numeric_str df = Ok df' →
  columns df' = columns df
  ∧ length (data df') = length (data df)
  ∧ ∀ n row, data df !! n = Some row →
      ∃ row', data df' !! n = Some row'
              ∧ length row' = length row
              ∧ ∀ k,
                  (index_of (py "hora") (columns df) = Some k →
                   (to_numeric to_numeric_str (cell k row) = NotANumber →
                    cell k row' = CNA)
                   ∧ ∀ z, to_numeric to_numeric_str (cell k row) = Whole z
                          ∨ to_numeric to_numeric_str (cell k row) = FloatWhole z →
                          (cell k row' = CInt z
                           ∨ cell k row' = CInt (float64_of_Z z))
                          ∧ ((Z.abs z < 2 ^ 53)%Z → cell k row' = CInt z))
                  ∧ (index_of (py "dia_semana") (columns df) = Some k →
                     cell k row' = categorical (cell k row))
                  ∧ (index_of (py "hora") (columns df) ≠ Some k →
                     index_of (py "dia_semana") (columns df) ≠ Some k →
                     cell k row' = cell k row).
Proof.
  intros H. apply normalise_rows in H as (Hc & Hl & Hr).
  split; [done|]. split; [done|]. intros n row Hrow.
  destruct (Hr n row Hrow) as (row' & Hn & Hlen & Hk). exists row'.
  split; [done|]. split; [done|]. intros k. rewrite Hk.
  unfold normalised_cell. split; [|split].
  - intros Hh. rewrite decide_True by done. split.
    + intros ->. by destruct (hora_dtype to_numeric_str df).
    + intros z Hz.
      assert (∀ d, int64_cell (column_value d
                     (to_numeric to_numeric_str (cell k row)))
                   = CInt z
                   ∨ int64_cell (column_value d
                       (to_numeric to_numeric_str (cell k row)))
                     = CInt (float64_of_Z z)) as Hd.
      { intros d. destruct Hz as [-> | ->]; destruct d; cbn; auto. }
      split; [apply Hd|]. intros Hsmall.
      destruct (Hd (hora_dtype to_numeric_str df)) as [-> | ->]; [done|].
      by rewrite as_float64_small.
  - intros Hd. rewrite decide_False.
    + by rewrite decide_True.
    + intros Hh. apply index_of_lookup in Hh, Hd. rewrite Hh in Hd.
      revert Hd. vm_compute. discriminate.
  - intros Hh Hd. by rewrite !decide_False.
Qed.

Lemma normalise_cell_by_cell_witness :
  columns typed_frame = columns text_frame
  ∧ length (data typed_frame) = length (data text_frame)
  ∧ ∀ n row, data text_frame !! n = Some row →
      ∃ row', data typed_frame !! n = Some row'
              ∧ length row' = length row
              ∧ ∀ k,
                  (index_of (py "hora") (columns text_frame) = Some k →
                   (to_numeric decimal (cell k row) = NotANumber →
                    cell k row' = CNA)
                   ∧ ∀ z, to_numeric decimal (cell k row) = Whole z
                          ∨ to_numeric decimal (cell k row) = FloatWhole z →
                          (cell k row' = CInt z
                           ∨ cell k row' = CInt (float64_of_Z z))
                          ∧ ((Z.abs z < 2 ^ 53)%Z → cell k row' = CInt z))
                  ∧ (index_of (py "dia_semana") (columns text_frame) = Some k →
                     cell k row' = categorical (cell k row))
                  ∧ (index_of (py "hora") (columns text_frame) ≠ Some k →
                     index_of (py "dia_semana") (columns text_frame) ≠ Some k →
                     cell k row' = cell k row).
Proof.
  apply (normalise_cell_by_cell decimal text_frame typed_frame). reflexivity.
Defined.

(** An hour above [2^53] is kept when every hour of the column is an
    integer, and rounded to a float64 when another cell of the column
    is not a number. *)
Example large_hour_depends_on_column :
  astype_Int64 (to_numeric_column decimal [CStr (py "9007199254740993")])
  = Ok [CInt 9007199254740993]
  ∧ astype_Int64 (to_numeric_column decimal
                    [CStr (py "9007199254740993"); CStr (py "x")])
    = Ok [CInt 9007199254740992; CNA].
Proof. split; reflexivity. Qed.

(** What the cast refuses, and with which exception: an infinity
    ([OverflowError]), an integer that only uint64 holds, and an hour
    with a fractional part ([TypeError]). *)
Example astype_Int64_refusals :
  astype_Int64 (to_numeric_column decimal [CStr (py "inf")])
  = Raise float_infinity
  ∧ astype_Int64 (to_numeric_column decimal [CStr (py "9223372036854775808")])
    = Raise (cannot_safely_cast "uint64")
  ∧ astype_Int64 (to_numeric_column decimal [CStr (py "8.5"); CStr (py " 9")])
    = Raise (cannot_safely_cast "float64")
  ∧ astype_Int64 (to_numeric_column decimal [CStr (py "1e1"); CStr (py " 8")])
    = Ok [CInt 10; CInt 8].
Proof. repeat split; reflexivity. Qed.

(** After [load_data]'s normalisations every cell under [hora] is an
    integer or missing, and every cell under [dia_semana] is one of the
    seven day names or missing: the dashboard never sees another
    value in these two columns. *)
Theorem normalise_types (to_numeric_str : pystr → Num)
    (df df' : DataFrame) (row : list Cell) :
  normalise to_numeric_str df = Ok df' → row ∈ data df' →
  (∀ i, index_of (py "hora") (columns df') = Some i →
        cell i row = CNA ∨ ∃ z, cell i row = CInt z)
  ∧ (∀ j, index_of (py "dia_semana") (columns df') = Some j →
          cell j row = CNA ∨ ∃ d, d ∈ DIAS_ORD ∧ cell j row = CStr d).
Proof.
  intros Hn Hrow. apply normalise_rows in Hn as (Hc & Hl & Hr).
  apply list_elem_of_lookup in Hrow as [n Hn].
  assert (is_Some (data df !! n)) as [row0 H0].
  { apply lookup_lt_is_Some. rewrite <- Hl. by eapply lookup_lt_Some. }
  destruct (Hr n row0 H0) as (row' & Hn' & _ & Hk).
  rewrite Hn in Hn'. injection Hn' as <-. rewrite Hc. split.
  - intros i Hi. rewrite Hk. unfold normalised_cell.
    rewrite decide_True by done.
    destruct (column_value _ _); cbn; eauto.
  - intros j Hj. rewrite Hk. unfold normalised_cell.
    rewrite decide_False.
    + rewrite decide_True by done. unfold categorical.
      destruct (cell j row0) as [d| |]; eauto.
      destruct (decide (d ∈ DIAS_ORD)); eauto.
    + intros Hi. apply index_of_lookup in Hi, Hj. rewrite Hi in Hj.
      revert Hj. vm_compute. discriminate.
Qed.

Lemma normalise_types_witness :
  let row := <[13%nat := CInt 8]>
               (CStr <$> sheet_row (py "Ana") (py "Anestesia") (py "Lunes")
                           (py "8")) in
  (∀ i, index_of (py "hora") (columns typed_frame) = Some i →
        cell i row = CNA ∨ ∃ z, cell i row = CInt z)
  ∧ (∀ j, index_of (py "dia_semana") (columns typed_frame) = Some j →
          cell j row = CNA ∨ ∃ d, d ∈ DIAS_ORD ∧ cell j row = CStr d).
Proof.
  apply (normalise_types decimal text_frame typed_frame).
  - reflexivity.
  - by left.
Defined.

Section LoadData.

Variable to_numeric_str : pystr → Num.

Lemma keeps_primary : keeps primary.
Proof.
  apply keeps_bind; [apply keeps_client|]. intros _.
  apply keeps_bind; [apply keeps_open_or_create|]. intros _.
  apply keeps_bind; [apply keeps_ensure_headers|]. intros _.
  apply keeps_bind.
  - apply keeps_bind; [apply keeps_request|]. intros _. apply keeps_pure.
  - intros [|header rows]; [apply keeps_ret|].
    apply keeps_bind; [|intros ?; apply keeps_ret].
    intros w r w' [= _ <-]. done.
Qed.

Lemma keeps_fetch : keeps fetch.
Proof.
  apply keeps_try_except; [apply keeps_primary|]. intros _.
  apply keeps_try_except; [|intros _; apply keeps_ret].
  apply keeps_bind; [|intros ?; apply keeps_ret].
  intros w r w' [= _ <-]. done.
Qed.

Lemma keeps_load_data : keeps (load_data to_numeric_str).
Proof.
  apply keeps_bind; [apply keeps_fetch|].
  intros [df|df]; [apply keeps_ret|]. intros w r w' [= _ <-]. done.
Qed.

End LoadData.

(** [load_data] raises only after a frame has been fetched, and only
    when that frame has the label [hora] twice, or the label
    [dia_semana] twice, or an hour that [Int64] does not hold as it is
    read or as the float64 of a column of floats: one with a
    fractional part, an infinity, or a whole number outside the range
    of int64.  Missing hours, texts that are no numbers and whole
    numbers below [2^53] in magnitude never make it raise, and no
    failure of the store or of the published CSV comes out as an
    exception. *)
Theorem load_data_raises_only (to_numeric_str : pystr → Num)
    (w : World) (e : exn) (w' : World) :
  load_data to_numeric_str w = (Raise e, w') →
  (∃ df, fetch w = (Ok (inr df), w')
         ∧ ((1 < count_label (py "hora") (columns df))%nat
            ∨ (1 < count_label (py "dia_semana") (columns df))%nat
            ∨ ∃ row i, row ∈ data df
                       ∧ index_of (py "hora") (columns df) = Some i
                       ∧ fits_int64 (to_numeric to_numeric_str (cell i row))
                         = false))
  ∧ fits_int64 NotANumber = true
  ∧ ∀ z, (Z.abs z < 2 ^ 53)%Z →
         fits_int64 (Whole z) = true ∧ fits_int64 (FloatWhole z) = true.
Proof.
  intros H. split; [|split; [done|apply small_fits_int64]].
  destruct (load_data_normalises to_numeric_str w) as (r & w0 & Hf & Hl).
  rewrite Hl in H. destruct r as [df|df]; [done|].
  injection H as H <-. exists df. split; [done|].
  by eapply normalise_raises.
Qed.

Lemma load_data_raises_only_witness :
  (∃ df, fetch half_hour_world = (Ok (inr df), half_hour_world)
         ∧ ((1 < count_label (py "hora") (columns df))%nat
            ∨ (1 < count_label (py "dia_semana") (columns df))%nat
            ∨ ∃ row i, row ∈ data df
                       ∧ index_of (py "hora") (columns df) = Some i
                       ∧ fits_int64 (to_numeric decimal (cell i row)) = false))
  ∧ fits_int64 NotANumber = true
  ∧ ∀ z, (Z.abs z < 2 ^ 53)%Z →
         fits_int64 (Whole z) = true ∧ fits_int64 (FloatWhole z) = true.
Proof.
  apply (load_data_raises_only decimal half_hour_world
           (TypeError (py "cannot safely cast non-equivalent object to int64"))
           half_hour_world).
  reflexivity.
Defined.

(** An hour with a fractional part or an infinite one in the fetched
    frame makes [load_data] raise, whatever the other rows hold: the
    column of [hora] is then one of floats, and the cast to [Int64]
    refuses it. *)
Theorem load_data_raises_on_bad_hour (to_numeric_str : pystr → Num)
    (w w' : World) (df : DataFrame) (row : list Cell) (i : nat) :
  fetch w = (Ok (inr df), w') →
  index_of (py "hora") (columns df) = Some i → row ∈ data df →
  (∃ f, to_numeric to_numeric_str (cell i row) = Fractional f)
  ∨ (∃ b, to_numeric to_numeric_str (cell i row) = Infinite b) →
  ∃ e, load_data to_numeric_str w = (Raise e, w').
Proof.
  intros Hf Hi Hrow Hbad.
  destruct (normalise_hora_refuses to_numeric_str df i row Hi Hrow) as [e He].
  - by destruct Hbad as [[f ->]|[b ->]].
  - by destruct Hbad as [[f ->]|[b ->]].
  - exists e. unfold load_data, bind. rewrite Hf. unfold lift. by rewrite He.
Qed.

Lemma load_data_raises_on_bad_hour_witness :
  ∃ e, load_data decimal half_hour_world = (Raise e, half_hour_world).
Proof.
  apply (load_data_raises_on_bad_hour decimal half_hour_world half_hour_world
           {| columns := HEADERS;
              data := [CStr <$> sheet_row (py "Ana") (py "Anestesia")
                                  (py "Lunes") (py "8.5")] |}
           (CStr <$> sheet_row (py "Ana") (py "Anestesia") (py "Lunes")
                       (py "8.5"))
           13%nat).
  - reflexivity.
  - reflexivity.
  - by left.
  - left. by exists 8%Z.
Defined.

(** Without valid credentials [load_data] makes no request to the
    store: the world is left as it is and the table is the published
    CSV, normalised, or the empty canonical table when the CSV cannot
    be read. *)
Theorem load_data_without_credentials (to_numeric_str : pystr → Num)
    (w : World) :
  credentials w ≠ CredOk →
  load_data to_numeric_str w
  = (match csv w with
     | Ok df => normalise to_numeric_str df
     | Raise _ => Ok (empty_frame HEADERS)
     end, w).
Proof.
  intros Hc.
  unfold load_data, bind, fetch, try_except, primary, bind,
    _get_gspread_client, secondary, bind, read_csv.
  destruct (credentials w); [done| |]; by destruct (csv w).
Qed.

Lemma load_data_without_credentials_witness :
  load_data decimal csv_only_world
  = (match csv csv_only_world with
     | Ok df => normalise decimal df
     | Raise _ => Ok (empty_frame HEADERS)
     end, csv_only_world).
Proof.
  apply (load_data_without_credentials decimal csv_only_world). discriminate.
Defined.

(** When the read of the store fails, for whatever reason and at
    whichever request, and the published CSV cannot be read either,
    [load_data] returns the empty table with the canonical labels. *)
Theorem load_data_degrades_to_empty (to_numeric_str : pystr → Num)
    (w : World) (e e' : exn) (w' : World) :
  primary w = (Raise e, w') → csv w = Raise e' →
  load_data to_numeric_str w = (Ok (empty_frame HEADERS), w').
Proof.
  intros Hp Hc. eapply load_data_both_fail; [exact Hp|].
  apply keeps_primary in Hp as (_ & -> & _). exact Hc.
Qed.

Lemma load_data_degrades_to_empty_witness :
  load_data decimal dark_world
  = (Ok (empty_frame HEADERS), set_faults [] dark_world).
Proof.
  apply (load_data_degrades_to_empty decimal dark_world
           (APIError 503 (py "The service is currently unavailable."))
           (Exn (py "HTTPError") (py "'HTTP Error 404: Not Found'")));
    reflexivity.
Defined.

(** ** The submission block *)

Lemma submit_cases ts rid f w :
  let rows := expand_rows (base ts rid f) (dias_sel f) (horas_sel f) in
  (required_present f = false ∧ submit ts rid f w = (Ok MissingFields, w))
  ∨ (required_present f = true
     ∧ ∃ w0, append_form_rows rows w = (Ok (true, py "OK"), w0)
             ∧ submit ts rid f w
               = (Ok (Saved (length rows)), set_cache None w0))
  ∨ (required_present f = true
     ∧ ∃ e w0, append_form_rows rows w = (Ok (false, repr_exn e), w0)
               ∧ submit ts rid f w = (Ok (NotSaved (repr_exn e)), w0)).
Proof.
  cbv zeta. unfold submit. destruct (required_present f); [|by left].
  right. cbn [negb]. unfold bind, append_form_rows.
  destruct (try_except_cases
              (append_attempt
                 (expand_rows (base ts rid f) (dias_sel f) (horas_sel f)))
              (λ e, ret (false, repr_exn e)) w)
    as [(r & w0 & Ha & ->)|(e & w0 & Ha & ->)].
  - left. pose proof (append_attempt_value _ _ _ _ Ha) as ->.
    split; [done|]. by exists w0.
  - right. split; [done|]. by exists e, w0.
Qed.

(** The submission block never raises: it ends with one of three
    notices.  It asks for the missing fields exactly when the name,
    the identity number, the plate, the unit, the days or the hours are
    empty, and then the world is untouched; when it reports a save the
    cache of [load_data] is empty, and when it reports a failure the
    cache is as it was. *)
Theorem submit_notices (ts rid : pystr) (f : Form) (w : World) :
  ∃ notice w',
    submit ts rid f w = (Ok notice, w')
    ∧ (notice = MissingFields ↔ required_present f = false)
    ∧ (notice = MissingFields → w' = w)
    ∧ (∀ n, notice = Saved n → cache w' = None)
    ∧ (∀ msg, notice = NotSaved msg → cache w' = cache w).
Proof.
  destruct (submit_cases ts rid f w)
    as [[Hr Hs]|[[Hr (w0 & Ha & Hs)]|[Hr (e & w0 & Ha & Hs)]]];
    eexists _, _; (split; [exact Hs|]).
  - repeat split; try done.
  - split; [split; [done|by rewrite Hr]|]. repeat split; done.
  - split; [split; [done|by rewrite Hr]|]. split; [done|]. split; [done|].
    intros msg _. by apply keeps_append_form_rows in Ha as (_ & _ & ?).
Qed.



(** A name of white space only, or a plate of hyphens, spaces and
    periods only, is an empty field once normalised: the submission is
    turned down and no request is made. *)
Theorem blank_name_or_plate_rejected (ts rid : pystr) (raw : RawForm)
    (w : World) :
  Forall (λ c, py_isspace c = true) (raw_nombre raw)
  ∨ Forall is_separator (raw_placa raw) →
  submit ts rid (read_form raw) w = (Ok MissingFields, w).
Proof.
  intros H. unfold submit.
  assert (required_present (read_form raw) = false) as ->; [|done].
  unfold required_present.
  change (nombre (read_form raw)) with (to_title (Some (raw_nombre raw))).
  change (placa (read_form raw)) with (norm_placa (Some (raw_placa raw))).
  destruct H as [H|H].
  - unfold to_title. rewrite to_title_of_blank by done. done.
  - unfold norm_placa.
    rewrite (norm_placa_separators_only py_upper py_upper_separators) by done.
    cbn [truthy]. by rewrite !andb_false_r.
Qed.

Lemma blank_name_or_plate_rejected_witness :
  submit (py "2024-05-06T07:00:00") (py "rid") (read_form blank_input)
    fresh_world
  = (Ok MissingFields, fresh_world).
Proof.
  apply (blank_name_or_plate_rejected (py "2024-05-06T07:00:00") (py "rid")
           blank_input fresh_world).
  left. repeat constructor.
Defined.

(** ** Filters and panels *)

Lemma filter_dim_is_filter col values q q' :
  filter_dim col values q = Ok q' →
  columns q' = columns q
  ∧ data q' = filter (passes col values (columns q)) (data q).
Proof.
  unfold filter_dim, isin_filter. destruct values as [|v values]; cbn [truthy].
  - intros [= <-]. split; [done|].
    induction (data q) as [|row rows IH]; [done|].
    rewrite filter_cons_True by (by left). by f_equal.
  - destruct (index_of col (columns q)) as [i|] eqn:Ei; [|done].
    intros [= <-]. split; [done|]. cbn. apply filter_ext_elem.
    intros row _. unfold passes. rewrite Ei. split.
    + intros ?. right. by exists i.
    + intros [?|(j & [= <-] & ?)]; done.
Qed.

Lemma index_of_None x l : index_of x l = None ↔ x ∉ l.
Proof.
  split.
  - intros Hn Hin. destruct (index_of_elem _ _ Hin) as [i Hi].
    by rewrite Hi in Hn.
  - intros Hout. destruct (index_of x l) as [i|] eqn:E; [|done].
    apply index_of_lookup in E. exfalso. apply Hout.
    by eapply list_elem_of_lookup_2.
Qed.

(** The rows that come out of the three filters are the rows of the
    frame that pass the three selections, in their order and as often
    as they occur; the labels are unchanged.  Filtering drops rows
    and does nothing else. *)
Theorem apply_filters_is_filter (f_unidades : list Cell)
    (f_dias : list pystr) (f_horas : list Z) (df q : DataFrame) :
  apply_filters f_unidades f_dias f_horas df = Ok q →
  columns q = columns df
  ∧ data q
    = filter (λ row,
               passes (py "hora") (CInt <$> f_horas) (columns df) row
               ∧ passes (py "dia_semana") (CStr <$> f_dias) (columns df) row
               ∧ passes (py "unidad") f_unidades (columns df) row)
        (data df)
  ∧ data q `sublist_of` data df.
Proof.
  unfold apply_filters, result_bind. cbv zeta.
  destruct (filter_dim (py "unidad") f_unidades df) as [q1|] eqn:E1;
    [|discriminate].
  destruct (filter_dim (py "dia_semana") (CStr <$> f_dias) q1) as [q2|] eqn:E2;
    [|discriminate].
  intros E3.
  apply filter_dim_is_filter in E1 as [C1 D1].
  apply filter_dim_is_filter in E2 as [C2 D2].
  apply filter_dim_is_filter in E3 as [C3 D3].
  rewrite C2, C1 in C3, D3. rewrite C1 in D2.
  assert (Hd : data q
    = filter (λ row,
               passes (py "hora") (CInt <$> f_horas) (columns df) row
               ∧ passes (py "dia_semana") (CStr <$> f_dias) (columns df) row
               ∧ passes (py "unidad") f_unidades (columns df) row)
        (data df)).
  { rewrite D3, D2, D1, !list_filter_filter. apply filter_ext_elem.
    intros row _. tauto. }
  split; [done|]. split; [done|]. rewrite Hd. apply sublist_filter.
Qed.

Lemma apply_filters_is_filter_witness :
  let q := {| columns := HEADERS;
              data := [ frame_row (py "Ana") (py "Anestesia") (py "Martes") 9 ]
           |} in
  columns q = columns two_units
  ∧ data q
    = filter (λ row,
               passes (py "hora") (CInt <$> [9%Z]) (columns two_units) row
               ∧ passes (py "dia_semana") (CStr <$> []) (columns two_units) row
               ∧ passes (py "unidad") [CStr (py "Anestesia")]
                   (columns two_units) row)
        (data two_units)
  ∧ data q `sublist_of` data two_units.
Proof.
  apply (apply_filters_is_filter [CStr (py "Anestesia")] [] [9%Z] two_units).
  reflexivity.
Defined.

(** The filters go through exactly when every dimension with a
    selection has its column in the frame; a selection on a column the
    frame lacks raises [KeyError], and a dimension without selection
    does not look at its column. *)
Theorem apply_filters_succeeds_iff (f_unidades : list Cell)
    (f_dias : list pystr) (f_horas : list Z) (df : DataFrame) :
  (∃ q, apply_filters f_unidades f_dias f_horas df = Ok q)
  ↔ (f_unidades = [] ∨ py "unidad" ∈ columns df)
    ∧ (f_dias = [] ∨ py "dia_semana" ∈ columns df)
    ∧ (f_horas = [] ∨ py "hora" ∈ columns df).
Proof.
  assert (Hdim : ∀ col values q,
    (∃ q', filter_dim col values q = Ok q' ∧ columns q' = columns q)
    ↔ (values = [] ∨ col ∈ columns q)).
  { intros col values q. unfold filter_dim, isin_filter.
    destruct values as [|v values]; cbn [truthy].
    - split; [by left|]. intros _. by exists q.
    - destruct (index_of col (columns q)) as [i|] eqn:Ei.
      + split; [|by eexists].
        intros _. right. apply index_of_lookup in Ei.
        by eapply list_elem_of_lookup_2.
      + apply index_of_None in Ei. split.
        * by intros (? & [=] & _).
        * intros [?|?]; done. }
  unfold apply_filters, result_bind. cbv zeta. split.
  - intros [q H].
    destruct (filter_dim (py "unidad") f_unidades df) as [q1|] eqn:E1;
      [|discriminate].
    destruct (filter_dim (py "dia_semana") (CStr <$> f_dias) q1)
      as [q2|] eqn:E2; [|discriminate].
    pose proof (filter_dim_columns _ _ _ _ E1) as C1.
    pose proof (filter_dim_columns _ _ _ _ E2) as C2.
    pose proof (filter_dim_columns _ _ _ _ H) as C3.
    split; [|split].
    + apply Hdim. by exists q1.
    + rewrite <- C1.
      assert (CStr <$> f_dias = [] ∨ py "dia_semana" ∈ columns q1) as [E|?];
        [apply Hdim; by exists q2| |by right].
      left. by destruct f_dias.
    + rewrite <- C1, <- C2.
      assert (CInt <$> f_horas = [] ∨ py "hora" ∈ columns q2) as [E|?];
        [apply Hdim; by exists q| |by right].
      left. by destruct f_horas.
  - intros (Hu & Hd & Hh).
    apply Hdim in Hu as (q1 & -> & C1).
    assert (CStr <$> f_dias = [] ∨ py "dia_semana" ∈ columns q1) as Hd1.
    { rewrite C1. destruct Hd as [->|?]; [by left|by right]. }
    apply Hdim in Hd1 as (q2 & -> & C2).
    assert (CInt <$> f_horas = [] ∨ py "hora" ∈ columns q2) as Hh2.
    { rewrite C2, C1. destruct Hh as [->|?]; [by left|by right]. }
    apply Hdim in Hh2 as (q3 & -> & _). by exists q3.
Qed.

Lemma length_remove_dups {A} `{EqDecision A} (l : list A) :
  (length (remove_dups l) ≤ length l)%nat.
Proof.
  induction l as [|x l IH]; [done|]. cbn.
  destruct (decide_rel _ _ _); cbn; lia.
Qed.

Lemma nunique_le col : (nunique col ≤ length col)%nat.
Proof.
  unfold nunique. etrans; [apply length_remove_dups|apply length_filter].
Qed.

Lemma nunique_or_0_le name q : (nunique_or_0 name q ≤ length (data q))%nat.
Proof.
  unfold nunique_or_0. destruct (index_of name (columns q)); [|lia].
  etrans; [apply nunique_le|]. unfold get_column. by rewrite length_fmap.
Qed.

(** None of the three counts of distinct values exceeds the number of
    records, and filtering never raises the number of records. *)
Theorem metrics_bounds (q : DataFrame) :
  (usuarios_unicos (metrics q) ≤ registros (metrics q))%nat
  ∧ (vehiculos_unicos (metrics q) ≤ registros (metrics q))%nat
  ∧ (unidades_activas (metrics q) ≤ registros (metrics q))%nat
  ∧ (∀ f_unidades f_dias f_horas q',
       apply_filters f_unidades f_dias f_horas q = Ok q' →
       (registros (metrics q') ≤ registros (metrics q))%nat).
Proof.
  unfold metrics. cbn.
  split; [apply nunique_or_0_le|]. split; [apply nunique_or_0_le|].
  split; [apply nunique_or_0_le|].
  intros fu fd fh q' H. apply sublist_length.
  unfold apply_filters, result_bind in H. cbv zeta in H.
  destruct (filter_dim (py "unidad") fu q) as [q1|] eqn:E1; [|discriminate].
  destruct (filter_dim (py "dia_semana") (CStr <$> fd) q1) as [q2|] eqn:E2;
    [|discriminate].
  apply filter_dim_is_filter in E1 as [_ D1].
  apply filter_dim_is_filter in E2 as [_ D2].
  apply filter_dim_is_filter in H as [_ D3].
  rewrite D3, D2, D1. etrans; [apply sublist_filter|].
  etrans; apply sublist_filter.
Qed.

Lemma length_filter_disjoint {A} (P Q : A → Prop)
    `{∀ x, Decision (P x)} `{∀ x, Decision (Q x)} (l : list A) :
  (∀ x, P x → Q x → False) →
  (length (filter P l) + length (filter Q l))%nat
  = length (filter (λ x, P x ∨ Q x) l).
Proof.
  intros Hd. induction l as [|x l IH]; [done|].
  rewrite !filter_cons.
  destruct (decide (P x)) as [HP|HP], (decide (Q x)) as [HQ|HQ].
  - by destruct (Hd x).
  - rewrite decide_True by tauto. cbn. lia.
  - rewrite decide_True by tauto. cbn. lia.
  - rewrite decide_False by tauto. done.
Qed.

(** The counts of the groups of a key add up to the number of rows
    counted. *)
Lemma count_group_sum {K} `{EqDecision K} (key_of : list Cell → K)
    (r : nat) (rows : list (list Cell)) (ks : list K) :
  NoDup ks →
  sum_list (count_group key_of r rows <$> ks)
  = length (filter (λ row, key_of row ∈ ks ∧ cell r row ≠ CNA) rows).
Proof.
  induction 1 as [|k ks Hk _ IH].
  - cbn. induction rows as [|row rows IHr]; [done|].
    rewrite filter_cons_False; [done|]. intros [[]%elem_of_nil _].
  - cbn [fmap list_fmap sum_list]. rewrite IH. unfold count_group at 1.
    unfold id. rewrite (length_filter_disjoint _ _ rows).
    + f_equal. apply filter_ext_elem. intros row _. unfold cell.
      rewrite elem_of_cons. tauto.
    + intros row [-> _] [? _]. done.
Qed.

Lemma fmap_snd_pair {A B} (f : A → B) (l : list A) :
  ((λ v, (v, f v)) <$> l).*2 = f <$> l.
Proof. induction l as [|a l IH]; [done|]. cbn. by rewrite IH. Qed.

Lemma groupby_count_total key q g :
  groupby_count key q = Ok g →
  sum_list g.*2 = length (present_under (py "registro_id") q).
Proof.
  unfold groupby_count, present_under.
  destruct (index_of key (columns q)) as [k|]; [|discriminate].
  destruct (index_of (py "registro_id") (columns q)) as [r|]; [|discriminate].
  intros [= <-].
  rewrite fmap_snd_pair, count_group_sum by apply NoDup_distinct.
  f_equal. apply filter_ext_elem. intros row Hrow. unfold cell.
  split; [tauto|]. intros ?. split; [|done].
  apply elem_of_distinct. split; [|apply not_elem_of_nil].
  by apply (list_elem_of_fmap_2 (λ row, default CNA (row !! k))).
Qed.

(** The counts of the chart by unit add up to the number of records
    that have a [registro_id], which is at most the number of records
    shown in the first metric: every such record is counted in exactly
    one unit, the records without unit included. *)
Theorem by_unidad_counts_sum (q : DataFrame) (out : list (Cell * nat)) :
  by_unidad q out →
  sum_list out.*2 = length (present_under (py "registro_id") q)
  ∧ (sum_list out.*2 ≤ registros (metrics q))%nat.
Proof.
  intros (g & Hg & Hperm & _).
  assert (sum_list out.*2 = length (present_under (py "registro_id") q))
    as Hsum.
  { rewrite <- (groupby_count_total _ _ _ Hg). by rewrite Hperm. }
  split; [done|]. rewrite Hsum. unfold present_under, metrics. cbn.
  destruct (index_of _ _); [apply length_filter|cbn; lia].
Qed.

Lemma by_unidad_counts_sum_witness :
  sum_list [(CStr (py "Anestesia"), 2%nat); (CStr (py "Cirugia"), 1%nat)].*2
  = length (present_under (py "registro_id") two_units)
  ∧ (sum_list
       [(CStr (py "Anestesia"), 2%nat); (CStr (py "Cirugia"), 1%nat)].*2
     ≤ registros (metrics two_units))%nat.
Proof.
  apply (by_unidad_counts_sum two_units).
  exists [(CStr (py "Anestesia"), 2%nat); (CStr (py "Cirugia"), 1%nat)].
  split; [reflexivity|]. split; [reflexivity|]. repeat constructor.
Defined.

Lemma length_distinct_nunique (col : list Cell) :
  length (distinct [] col)
  = (nunique col + (if decide (CNA ∈ col) then 1 else 0))%nat.
Proof.
  unfold nunique.
  assert (Hperm : distinct [] col
    ≡ₚ (if decide (CNA ∈ col) then [CNA] else [])
       ++ remove_dups (filter (λ c, c ≠ CNA) col)).
  { apply NoDup_Permutation.
    - apply NoDup_distinct.
    - apply NoDup_app. split; [|split].
      + destruct (decide _); [apply NoDup_singleton|constructor].
      + intros c Hc Hin. apply elem_of_remove_dups, list_elem_of_filter in Hin
          as [Hne _].
        destruct (decide _); [|by apply elem_of_nil in Hc].
        by apply list_elem_of_singleton in Hc.
      + apply NoDup_remove_dups.
    - intros c. rewrite elem_of_distinct, elem_of_app, elem_of_remove_dups,
        list_elem_of_filter. split.
      + intros [Hc _]. destruct (decide (c = CNA)) as [->|Hne].
        * left. rewrite decide_True by done. by left.
        * by right.
      + intros [Hc|[_ Hc]]; (split; [|apply not_elem_of_nil]); [|done].
        destruct (decide _) as [Hin|]; [|by apply elem_of_nil in Hc].
        by apply list_elem_of_singleton in Hc as ->. }
  rewrite (Permutation_length Hperm), length_app.
  destruct (decide _); cbn; lia.
Qed.

(** The chart by unit has one bar for each distinct unit and one more
    when some record has no unit: the metric of active units leaves
    missing units out, the chart ([dropna=False]) does not. *)
Theorem by_unidad_bars (q : DataFrame) (out : list (Cell * nat)) :
  by_unidad q out →
  ∃ k, index_of (py "unidad") (columns q) = Some k
       ∧ length out
         = (unidades_activas (metrics q)
            + (if decide (CNA ∈ get_column k q) then 1 else 0))%nat.
Proof.
  intros (g & Hg & Hperm & _). rewrite (Permutation_length Hperm).
  unfold groupby_count in Hg. unfold metrics. cbn [unidades_activas].
  unfold nunique_or_0.
  destruct (index_of (py "unidad") (columns q)) as [k|]; [|discriminate].
  destruct (index_of (py "registro_id") (columns q)) as [r|]; [|discriminate].
  injection Hg as <-. exists k. split; [done|].
  rewrite length_fmap. apply (length_distinct_nunique (get_column k q)).
Qed.

Lemma by_unidad_bars_witness :
  ∃ k, index_of (py "unidad") (columns with_missing_unit) = Some k
       ∧ length [(CStr (py "Anestesia"), 2%nat); (CStr (py "Cirugia"), 1%nat);
                 (CNA, 1%nat)]
         = (unidades_activas (metrics with_missing_unit)
            + (if decide (CNA ∈ get_column k with_missing_unit)
               then 1 else 0))%nat.
Proof.
  apply (by_unidad_bars with_missing_unit).
  exists [(CStr (py "Anestesia"), 2%nat); (CStr (py "Cirugia"), 1%nat);
          (CNA, 1%nat)].
  split; [reflexivity|]. split; [reflexivity|]. repeat constructor.
Defined.

#[global] Instance hora_le_total : Total hora_le.
Proof. intros [| |] [| |]; cbn; try tauto. lia. Qed.

#[global] Instance slot_le_total : Total slot_le.
Proof.
  intros a b. unfold slot_le.
  destruct (lt_eq_lt_dec (day_rank a.1.1) (day_rank b.1.1)) as [[?|E]|?];
    [by left; left| |by right; left].
  destruct (total hora_le a.1.2 b.1.2); [left|right]; right; by rewrite E.
Qed.

Lemma NoDup_pairs {A B} (l : list A) (k : list B) :
  NoDup l → NoDup k → NoDup (a ← l; b ← k; [(a, b)]).
Proof.
  intros Hl Hk. apply NoDup_bind; [| |done].
  - intros a1 a2 [a b] _ _ H1 H2.
    apply list_elem_of_bind in H1 as (b1 & H1 & _).
    apply list_elem_of_bind in H2 as (b2 & H2 & _).
    apply list_elem_of_singleton in H1, H2. congruence.
  - intros a _. apply NoDup_bind; [| |done].
    + intros b1 b2 [a' b] _ _ H1 H2.
      apply list_elem_of_singleton in H1, H2. congruence.
    + intros b _. apply NoDup_singleton.
Qed.

Lemma elem_of_pairs {A B} (l : list A) (k : list B) a b :
  (a, b) ∈ (a ← l; b ← k; [(a, b)]) ↔ a ∈ l ∧ b ∈ k.
Proof.
  rewrite list_elem_of_bind. split.
  - intros (a' & H & Ha). apply list_elem_of_bind in H as (b' & H & Hb).
    apply list_elem_of_singleton in H. by injection H as -> ->.
  - intros [Ha Hb]. exists a. split; [|done].
    apply list_elem_of_bind. exists b. split; [|done].
    by apply list_elem_of_singleton.
Qed.

(** The table of the heat map, with either default of [observed]: no
    (day, hour) pair occurs twice, the rows come by day in the order of
    [DIAS_ORD] (missing days last) and within a day by hour, and the
    counts add up to the number of records that have a [registro_id];
    the pairs that a dense table adds count nothing. *)
Theorem grid_counts_sum (observed : bool) (q : DataFrame)
    (out : list ((Cell * Cell) * nat)) :
  grid observed q = Ok out →
  NoDup out.*1
  ∧ Sorted slot_le out
  ∧ sum_list out.*2 = length (present_under (py "registro_id") q).
Proof.
  unfold grid, present_under.
  destruct (index_of (py "dia_semana") (columns q)) as [d|]; [|discriminate].
  destruct (index_of (py "hora") (columns q)) as [h|]; [|discriminate].
  destruct (index_of (py "registro_id") (columns q)) as [r|]; [|discriminate].
  set (key_of := λ row : list Cell,
         (default CNA (row !! d), default CNA (row !! h))).
  set (present := distinct [] (key_of <$> data q)).
  set (keys := if observed then present
               else day ← distinct [] ((CStr <$> DIAS_ORD) ++ present.*1);
                    hora ← distinct [] (present.*2); [(day, hora)]).
  intros [= <-].
  assert (Hnd : NoDup keys).
  { unfold keys. destruct observed; [apply NoDup_distinct|].
    apply NoDup_pairs; apply NoDup_distinct. }
  assert (Hcover : ∀ row, row ∈ data q → key_of row ∈ keys).
  { intros row Hrow.
    assert (key_of row ∈ present) as Hp.
    { apply elem_of_distinct. split; [|apply not_elem_of_nil].
      by apply (list_elem_of_fmap_2 key_of). }
    unfold keys. destruct observed; [done|].
    destruct (key_of row) as [a b] eqn:E. apply elem_of_pairs. split.
    - apply elem_of_distinct. split; [|apply not_elem_of_nil].
      apply elem_of_app. right.
      by apply (list_elem_of_fmap_2 fst) in Hp.
    - apply elem_of_distinct. split; [|apply not_elem_of_nil].
      by apply (list_elem_of_fmap_2 snd) in Hp. }
  pose proof (merge_sort_Permutation slot_le
                ((λ k, (k, count_group key_of r (data q) k)) <$> keys))
    as Hperm.
  split; [|split].
  - rewrite Hperm, fmap_fst_pair. done.
  - apply (Sorted_merge_sort _).
  - rewrite Hperm, fmap_snd_pair, count_group_sum by done.
    f_equal. apply filter_ext_elem. intros row Hrow. unfold cell.
    split; [tauto|]. intros ?. split; [by apply Hcover|done].
Qed.

Lemma grid_counts_sum_witness :
  let out := [ ((CStr (py "Lunes"), CInt 8), 2%nat);
               ((CStr (py "Martes"), CInt 9), 1%nat) ] in
  NoDup out.*1
  ∧ Sorted slot_le out
  ∧ sum_list out.*2 = length (present_under (py "registro_id") two_units).
Proof.
  apply (grid_counts_sum true two_units). reflexivity.
Defined.
